(** * Retrieval-quality metrics and A/B aggregation of the [cs --hybrid] benchmark

    A shallow embedding of

    - [benchmarks/quantitative/eval/metrics.py]   (the metric engine), and
    - [benchmarks/automation/test_runner.py]      (the aggregation engine),

    followed by the properties the design document states about them.

    Conventions of the embedding.

    - A Python [int] is a [Z].  A Python [float] that is produced by the four
      arithmetic operations from integers is an exact rational, a [Q], compared
      with [==]; the only transcendental operation of the code, [np.log2] in
      the discounted cumulative gain, is taken over the reals [R].  Rounding is
      not modelled.
    - A Python exception is a value of [exn]; a function that can raise
      returns a [result].  Python's [/] raises [ZeroDivisionError] on a zero
      divisor, so it is the fallible [truediv]; numpy's [/] on [np.float64]
      does not raise and is the total division of [R].
    - Python integers are unbounded and floats are not: a [float] divided by
      an [int] converts the [int] first and raises [OverflowError] when its
      magnitude is [2**1024 - 2**970] or more.  The reciprocal rank divides
      [1.0] by a stored, caller-supplied [rank] and is the fallible
      [float_div_int].  The quotient of two [int]s converts neither operand
      and is out of range only when the quotient itself is.  The average
      precision divides a float by [total_relevant], for which
      [evaluate_query] and [mean_average_precision] pass the size of a
      judgment set, below [2**63] in every Python process; it is converted
      exactly.
    - A [list] slice [l[:k]] follows Python for every integer [k], negative
      ones included.
    - A [set] of identifiers is a [gset string]; a [dict] read with [.get] is
      a [gmap]; a [dict] that is iterated is the list of its items in
      insertion order.
    - Printing, logging and wall-clock timing have no effect on the values
      computed and are left out; a dictionary lookup inside a printed
      f-string is kept, since it can raise [KeyError].  The two agents are
      parameters of the runner. *)

From Stdlib Require Import ZArith QArith Qminmax Qabs Reals Lra Lia Psatz.
From stdpp Require Import base list gmap strings pretty.

(** ** Exceptions *)

(** The exceptions, all deriving from [Exception], that the modelled code
    raises itself or receives from a collaborator. *)
Inductive exn : Type :=
| ZeroDivisionError
| OverflowError
| KeyError (key : string)
| StatisticsError
| CollaboratorError (msg : string).

Inductive result (A : Type) : Type :=
| Ok (a : A)
| Raise (e : exn).

Arguments Ok {A} a.
Arguments Raise {A} e.

#[global] Instance result_ret : MRet result := fun A a => Ok a.

#[global] Instance result_bind : MBind result := fun A B k m =>
  match m with
  | Ok a => k a
  | Raise e => Raise e
  end.

(** ** Python primitives *)

(** [a / b] on numbers: true division, [ZeroDivisionError] when [b == 0]. *)
Definition truediv (a b : Q) : result Q :=
  if Qeq_bool b 0 then Raise ZeroDivisionError else Ok (a / b)%Q.

(** The least magnitude of an [int] that has no [float]: the largest double
    is [2**1024 - 2**971], and the conversion rounds to nearest, ties to
    even, so every magnitude from [2**1024 - 2**970] on rounds out of
    range. *)
Definition float_overflow : Z := Eval vm_compute in (2 ^ 1024 - 2 ^ 970)%Z.

(** [float(z)] for an [int]: [OverflowError] (int too large to convert to
    float) when the magnitude of [z] has no double. *)
Definition float_of_int (z : Z) : result Q :=
  if (float_overflow <=? Z.abs z)%Z then Raise OverflowError
  else Ok (inject_Z z).

(** [a / b] for a [float] [a] and an [int] [b]: the divisor is converted to
    [float] first, which can raise [OverflowError], and the quotient of the
    two floats raises [ZeroDivisionError] on a zero divisor. *)
Definition float_div_int (a : Q) (b : Z) : result Q :=
  d ← float_of_int b; truediv a d.

(** [l[:k]]. *)
Definition slice_to {A : Type} (l : list A) (k : Z) : list A :=
  if (0 <=? k)%Z then firstn (Z.to_nat k) l
  else firstn (Z.to_nat (Z.of_nat (length l) + k)) l.

(** [not l] for a list. *)
Definition is_empty {A : Type} (l : list A) : bool :=
  match l with [] => true | _ :: _ => false end.

(** [len(l)]. *)
Definition len {A : Type} (l : list A) : Z := Z.of_nat (length l).

(** [range(a, b)]. *)
Definition py_range (a b : Z) : list Z :=
  map (fun i => (a + Z.of_nat i)%Z) (seq 0 (Z.to_nat (b - a))).

(** [sum(1 for x in l if p(x))]. *)
Fixpoint sum_ones {A : Type} (p : A -> bool) (l : list A) (acc : Z) : Z :=
  match l with
  | [] => acc
  | x :: t => sum_ones p t (if p x then acc + 1 else acc)%Z
  end.

(** ** The metric engine: [metrics.py] *)

(** [@dataclass class SearchResult]: the generated constructor stores its
    arguments; the class has no [__post_init__]. *)
Record SearchResult : Type := mkSearchResult {
  doc_id : string;
  score : Q;
  rank : Z;
  relevant : bool
}.

Record EvaluationResult : Type := mkEvaluationResult {
  query_id : string;
  precision_at_1 : Q;
  precision_at_5 : Q;
  precision_at_10 : Q;
  recall_at_10 : Q;
  mrr : Q;
  ndcg_at_10 : R;
  average_precision_of : Q
}.

Definition precision_at_k (results : list SearchResult) (k : Z) : result Q :=
  if is_empty results || (k =? 0)%Z then Ok 0%Q
  else
    let top_k := slice_to results k in
    let relevant_count := sum_ones relevant top_k 0 in
    truediv (inject_Z relevant_count) (inject_Z k).

Definition recall_at_k (results : list SearchResult) (k total_relevant : Z)
  : result Q :=
  if is_empty results || (k =? 0)%Z || (total_relevant =? 0)%Z then Ok 0%Q
  else
    let top_k := slice_to results k in
    let relevant_count := sum_ones relevant top_k 0 in
    truediv (inject_Z relevant_count) (inject_Z total_relevant).

(** The loop of [mean_reciprocal_rank]: [1.0 / result.rank] on the first
    relevant result, a float divided by the stored [int]. *)
Fixpoint mrr_loop (results : list SearchResult) : result Q :=
  match results with
  | [] => Ok 0%Q
  | r :: rest =>
      if relevant r then float_div_int 1 (rank r) else mrr_loop rest
  end.

Definition mean_reciprocal_rank (results : list SearchResult) : result Q :=
  if is_empty results then Ok 0%Q else mrr_loop results.

(** [np.log2]. *)
Definition log2 (x : R) : R := (ln x / ln 2)%R.

Fixpoint dcg_loop (i : Z) (top_k : list SearchResult) (dcg : R) : R :=
  match top_k with
  | [] => dcg
  | r :: rest =>
      let relevance := if relevant r then 1%R else 0%R in
      dcg_loop (i + 1) rest (dcg + relevance / log2 (IZR (i + 1)))%R
  end.

Definition discounted_cumulative_gain (results : list SearchResult) (k : Z)
  : R :=
  if is_empty results || (k =? 0)%Z then 0%R
  else dcg_loop 1 (slice_to results k) 0%R.

Definition ideal_results (k total_relevant : Z) : list SearchResult :=
  map (fun i => mkSearchResult ("ideal_" +:+ pretty i) 1 i true)
      (py_range 1 (Z.min k total_relevant + 1)).

Definition normalized_dcg (results : list SearchResult) (k total_relevant : Z)
  : R :=
  if is_empty results || (k =? 0)%Z || (total_relevant =? 0)%Z then 0%R
  else
    let actual_dcg := discounted_cumulative_gain results k in
    let ideal_dcg :=
      discounted_cumulative_gain (ideal_results k total_relevant) k in
    if Req_dec_T ideal_dcg 0 then 0%R else (actual_dcg / ideal_dcg)%R.

Fixpoint ap_loop (i : Z) (results : list SearchResult)
    (relevant_count : Z) (sum_precisions : Q) : result Q :=
  match results with
  | [] => Ok sum_precisions
  | r :: rest =>
      if relevant r then
        let relevant_count := (relevant_count + 1)%Z in
        precision_at_i ← truediv (inject_Z relevant_count) (inject_Z i);
        ap_loop (i + 1) rest relevant_count (sum_precisions + precision_at_i)%Q
      else ap_loop (i + 1) rest relevant_count sum_precisions
  end.

(** The final quotient divides the float [sum_precisions] by
    [total_relevant], which the callers of this module pass as the size of
    a judgment set; a size has a float and is converted exactly. *)
Definition average_precision (results : list SearchResult)
    (total_relevant : Z) : result Q :=
  if is_empty results || (total_relevant =? 0)%Z then Ok 0%Q
  else
    sum_precisions ← ap_loop 1 results 0 0%Q;
    truediv sum_precisions (inject_Z total_relevant).

(** The join against the judgment set, the list comprehension shared by
    [mean_average_precision] and [evaluate_query]. *)
Definition mark (relevant_docs : gset string) (results : list SearchResult)
  : list SearchResult :=
  map (fun r => mkSearchResult (doc_id r) (score r) (rank r)
                  (bool_decide (doc_id r ∈ relevant_docs)))
      results.

(** [len(s)] and [not s] for a set. *)
Definition set_len (s : gset string) : Z := Z.of_nat (size s).
Definition set_is_empty (s : gset string) : bool := bool_decide (s = ∅).

Fixpoint Qsum (l : list Q) : Q :=
  match l with
  | [] => 0%Q
  | x :: t => (x + Qsum t)%Q
  end.

(** [np.mean] of a list of numbers. *)
Definition np_mean (l : list Q) : Q := (Qsum l / inject_Z (len l))%Q.

Fixpoint map_loop (items : list (string * list SearchResult))
    (relevance_judgments : gmap string (gset string)) (ap_scores : list Q)
  : result (list Q) :=
  match items with
  | [] => Ok ap_scores
  | (query_id, results) :: rest =>
      let relevant_docs := default ∅ (relevance_judgments !! query_id) in
      if set_is_empty relevant_docs then
        map_loop rest relevance_judgments ap_scores
      else
        ap ← average_precision (mark relevant_docs results)
               (set_len relevant_docs);
        map_loop rest relevance_judgments (ap_scores ++ [ap])
  end.

Definition mean_average_precision
    (all_results : list (string * list SearchResult))
    (relevance_judgments : gmap string (gset string)) : result Q :=
  if is_empty all_results then Ok 0%Q
  else
    ap_scores ← map_loop all_results relevance_judgments [];
    if is_empty ap_scores then Ok 0%Q else Ok (np_mean ap_scores).

Definition evaluate_query (results : list SearchResult)
    (relevant_docs : gset string) : result EvaluationResult :=
  let marked_results := mark relevant_docs results in
  let total_relevant := set_len relevant_docs in
  let qid := match results with r :: _ => doc_id r | [] => "unknown" end in
  p1 ← precision_at_k marked_results 1;
  p5 ← precision_at_k marked_results 5;
  p10 ← precision_at_k marked_results 10;
  r10 ← recall_at_k marked_results 10 total_relevant;
  m ← mean_reciprocal_rank marked_results;
  let n10 := normalized_dcg marked_results 10 total_relevant in
  ap ← average_precision marked_results total_relevant;
  Ok (mkEvaluationResult qid p1 p5 p10 r10 m n10 ap).

(** [max(a, b)] keeps its first argument unless the second is strictly
    greater. *)
Definition py_max (a b : Q) : Q := if Qle_bool b a then a else b.

Definition hybrid_fusion_gain (hybrid_score semantic_score lexical_score
    ast_score : Q) : result Q :=
  let best_single := py_max (py_max semantic_score lexical_score) ast_score in
  if Qeq_bool best_single 0 then Ok 0%Q
  else truediv (hybrid_score - best_single) best_single.

Definition semantic_recall (semantic_matches ground_truth : gset string)
  : result Q :=
  if set_is_empty ground_truth then Ok 0%Q
  else
    let semantic_relevant := semantic_matches ∩ ground_truth in
    truediv (inject_Z (set_len semantic_relevant))
            (inject_Z (set_len ground_truth)).

Definition ast_precision (ast_matches ground_truth : gset string)
  : result Q :=
  if set_is_empty ast_matches then Ok 0%Q
  else
    let ast_relevant := ast_matches ∩ ground_truth in
    truediv (inject_Z (set_len ast_relevant)) (inject_Z (set_len ast_matches)).


(** ** The aggregation engine: [test_runner.py] *)

(** A task definition, a [Dict[str, Any]] loaded from YAML; the runner reads
    string-valued entries only. *)
Abbreviation task_dict := (gmap string string).

(** [d[key]]. *)
Definition dict_getitem (d : task_dict) (key : string) : result string :=
  match d !! key with
  | Some v => Ok v
  | None => Raise (KeyError key)
  end.

(** [d.get(key, dflt)]. *)
Definition dict_get (d : task_dict) (key dflt : string) : string :=
  default dflt (d !! key).

(** [AgentRun], restricted to the fields the runner reads. *)
Record AgentRun : Type := mkAgentRun {
  total_calls : Z;
  total_duration : Q;
  total_output_tokens : Z;
  precision : Q;
  recall : Q;
  success : bool
}.

Record ComparisonMetrics : Type := mkComparisonMetrics {
  task_id : string;
  task_category : string;
  task_difficulty : string;
  baseline_calls : Z;
  baseline_tokens : Z;
  baseline_duration : Q;
  baseline_precision : Q;
  baseline_recall : Q;
  baseline_success : bool;
  cs_calls : Z;
  cs_tokens : Z;
  cs_duration : Q;
  cs_precision : Q;
  cs_recall : Q;
  cs_success : bool;
  call_reduction_pct : Q;
  token_reduction_pct : Q;
  time_reduction_pct : Q;
  precision_improvement : Q;
  recall_improvement : Q
}.

Record TestRunner : Type := mkTestRunner {
  repo_path : string;
  verbose : bool;
  results : list ComparisonMetrics
}.

(** [TestRunner.__init__]. *)
Definition TestRunner_init (repo_path : string) (verbose : bool)
  : TestRunner :=
  mkTestRunner repo_path verbose [].

(** [x > 0] on a float. *)
Definition Qpos_bool (x : Q) : bool := negb (Qle_bool x 0).

(** [num / den * 100]. *)
Definition percentage (num den : Q) : result Q :=
  q ← truediv num den; Ok (q * 100)%Q.

Section Collaborators.

(** The two retrieval strategies, [BaselineAgent.execute_task] and
    [CSHybridAgent.execute_task]: opaque producers of run records that may
    raise. *)
Variable baseline_execute_task : task_dict -> result AgentRun.
Variable cs_execute_task : task_dict -> result AgentRun.

Definition run_single_task (self : TestRunner) (task : task_dict)
  : result ComparisonMetrics :=
  tid ← dict_getitem task "id";
  let category := dict_get task "category" "unknown" in
  let difficulty := dict_get task "difficulty" "medium" in
  _ ← (if verbose self then dict_getitem task "task" else Ok "");
  baseline_run ← baseline_execute_task task;
  cs_run ← cs_execute_task task;
  call_reduction ←
    (if (0 <? total_calls baseline_run)%Z
     then percentage
            (inject_Z (total_calls baseline_run - total_calls cs_run))
            (inject_Z (total_calls baseline_run))
     else Ok 0%Q);
  token_reduction ←
    (if (0 <? total_output_tokens baseline_run)%Z
     then percentage
            (inject_Z (total_output_tokens baseline_run
                       - total_output_tokens cs_run))
            (inject_Z (total_output_tokens baseline_run))
     else Ok 0%Q);
  time_reduction ←
    (if Qpos_bool (total_duration baseline_run)
     then percentage
            (total_duration baseline_run - total_duration cs_run)
            (total_duration baseline_run)
     else Ok 0%Q);
  let precision_improvement :=
    (precision cs_run - precision baseline_run)%Q in
  let recall_improvement := (recall cs_run - recall baseline_run)%Q in
  Ok {| task_id := tid;
        task_category := category;
        task_difficulty := difficulty;
        baseline_calls := total_calls baseline_run;
        baseline_tokens := total_output_tokens baseline_run;
        baseline_duration := total_duration baseline_run;
        baseline_precision := precision baseline_run;
        baseline_recall := recall baseline_run;
        baseline_success := success baseline_run;
        cs_calls := total_calls cs_run;
        cs_tokens := total_output_tokens cs_run;
        cs_duration := total_duration cs_run;
        cs_precision := precision cs_run;
        cs_recall := recall cs_run;
        cs_success := success cs_run;
        call_reduction_pct := call_reduction;
        token_reduction_pct := token_reduction;
        time_reduction_pct := time_reduction;
        precision_improvement := precision_improvement;
        recall_improvement := recall_improvement |}.

(** The [for] loop of [run_all_tasks].  The progress line reads
    [task['id']] before the [try]; the [try] wraps [run_single_task] and
    the [append]; the handler logs and continues. *)
Fixpoint run_loop (self : TestRunner) (tasks_to_run : list task_dict)
    (acc : list ComparisonMetrics) : result (list ComparisonMetrics) :=
  match tasks_to_run with
  | [] => Ok acc
  | task :: rest =>
      _ ← dict_getitem task "id";
      match run_single_task self task with
      | Ok metrics => run_loop self rest (acc ++ [metrics])
      | Raise _ => run_loop self rest acc
      end
  end.

(** Returns the runner with [self.results] assigned, and the returned
    list. *)
Definition run_all_tasks (self : TestRunner) (tasks : list task_dict)
    (max_tasks : option Z)
  : result (TestRunner * list ComparisonMetrics) :=
  let tasks_to_run :=
    match max_tasks with
    | Some n => if (n =? 0)%Z then tasks else slice_to tasks n
    | None => tasks
    end in
  res ← run_loop self tasks_to_run [];
  Ok (mkTestRunner (repo_path self) (verbose self) res, res).

End Collaborators.

(** [statistics.mean]. *)
Definition statistics_mean (data : list Q) : result Q :=
  if is_empty data then Raise StatisticsError
  else Ok (Qsum data / inject_Z (len data))%Q.

Fixpoint insert_sorted (x : Q) (l : list Q) : list Q :=
  match l with
  | [] => [x]
  | y :: t => if Qle_bool x y then x :: l else y :: insert_sorted x t
  end.

(** [sorted(data)]. *)
Definition sorted (data : list Q) : list Q := foldr insert_sorted [] data.

(** [statistics.median]. *)
Definition statistics_median (data : list Q) : result Q :=
  let data := sorted data in
  let n := length data in
  if (n =? 0)%nat then Raise StatisticsError
  else if Nat.odd n then Ok (nth (n / 2) data 0%Q)
  else
    let i := (n / 2)%nat in
    Ok ((nth (i - 1) data 0 + nth i data 0) / 2)%Q.

Record CategorySummary : Type := mkCategorySummary {
  count : Z;
  avg_call_reduction : Q;
  avg_token_reduction : Q;
  cs_success_rate : Q
}.

Record OverallImprovements : Type := mkOverallImprovements {
  avg_call_reduction_pct : Q;
  median_call_reduction_pct : Q;
  avg_token_reduction_pct : Q;
  median_token_reduction_pct : Q;
  avg_time_reduction_pct : Q
}.

Record SuccessRates : Type := mkSuccessRates {
  rate_baseline : Q;
  rate_cs_hybrid : Q;
  rate_improvement : Q
}.

Record PrecisionRecall : Type := mkPrecisionRecall {
  pr_baseline_precision : Q;
  pr_cs_precision : Q;
  pr_baseline_recall : Q;
  pr_cs_recall : Q;
  pr_precision_improvement : Q;
  pr_recall_improvement : Q
}.

Record Summary : Type := mkSummary {
  total_tasks : Z;
  overall_improvements : OverallImprovements;
  success_rates : SuccessRates;
  precision_recall : PrecisionRecall;
  by_category : list (string * CategorySummary)
}.

(** The returned [Dict[str, Any]]: either [{}] or the five-key summary. *)
Inductive report : Type :=
| EmptyReport
| Report (s : Summary).

(** [summary['total_tasks']], as [print_summary] reads it. *)
Definition report_total_tasks (r : report) : result Z :=
  match r with
  | EmptyReport => Raise (KeyError "total_tasks")
  | Report s => Ok (total_tasks s)
  end.

(** [categories[cat].append(metric)], creating the bucket when absent. *)
Fixpoint categories_append (cat : string) (metric : ComparisonMetrics)
    (categories : list (string * list ComparisonMetrics))
  : list (string * list ComparisonMetrics) :=
  match categories with
  | [] => [(cat, [metric])]
  | (c, ms) :: rest =>
      if String.eqb c cat then (c, ms ++ [metric]) :: rest
      else (c, ms) :: categories_append cat metric rest
  end.

Definition summarize_category (entry : string * list ComparisonMetrics)
  : result (string * CategorySummary) :=
  let '(cat, metrics) := entry in
  acr ← statistics_mean (map call_reduction_pct metrics);
  atr ← statistics_mean (map token_reduction_pct metrics);
  rate ← truediv (inject_Z (sum_ones cs_success metrics 0))
                 (inject_Z (len metrics));
  Ok (cat, mkCategorySummary (len metrics) acr atr rate).

Definition generate_summary_report (self : TestRunner) : result report :=
  if is_empty (results self) then Ok EmptyReport
  else
    let call_reductions := map call_reduction_pct (results self) in
    let token_reductions := map token_reduction_pct (results self) in
    let time_reductions := map time_reduction_pct (results self) in
    let baseline_successes := sum_ones baseline_success (results self) 0 in
    let cs_successes := sum_ones cs_success (results self) 0 in
    bp ← statistics_mean (map baseline_precision (results self));
    cp ← statistics_mean (map cs_precision (results self));
    br ← statistics_mean (map baseline_recall (results self));
    cr ← statistics_mean (map cs_recall (results self));
    let categories :=
      foldl (fun cats metric =>
               categories_append (task_category metric) metric cats)
            [] (results self) in
    category_summary ← mapM summarize_category categories;
    let n := inject_Z (len (results self)) in
    avg_call ← statistics_mean call_reductions;
    med_call ← statistics_median call_reductions;
    avg_token ← statistics_mean token_reductions;
    med_token ← statistics_median token_reductions;
    avg_time ← statistics_mean time_reductions;
    rb ← truediv (inject_Z baseline_successes) n;
    rc ← truediv (inject_Z cs_successes) n;
    ri ← truediv (inject_Z (cs_successes - baseline_successes)) n;
    Ok (Report
          {| total_tasks := len (results self);
             overall_improvements :=
               mkOverallImprovements avg_call med_call avg_token med_token
                                     avg_time;
             success_rates := mkSuccessRates rb rc ri;
             precision_recall :=
               mkPrecisionRecall bp cp br cr (cp - bp)%Q (cr - br)%Q;
             by_category := category_summary |}).

(** A node of a parsed YAML document, as far as [load_tasks] tells nodes
    apart: a mapping, or any other value. *)
Inductive yaml_value : Type :=
| YMapping (d : task_dict)
| YOther.

(** A document of the stream: a sequence of nodes, or a single node. *)
Inductive yaml_document : Type :=
| YSequence (items : list yaml_value)
| YSingle (v : yaml_value).

(** ['id' in d]. *)
Definition has_id (d : task_dict) : bool := bool_decide (is_Some (d !! "id")).

(** [load_tasks], from the documents that [yaml.safe_load_all] yields for
    the content of the file. *)
Definition load_tasks (documents : list yaml_document) : list task_dict :=
  let tasks :=
    foldl (fun tasks doc =>
             match doc with
             | YSequence items => tasks ++ items
             | YSingle (YMapping d) =>
                 if has_id d then tasks ++ [YMapping d] else tasks
             | YSingle YOther => tasks
             end)
          [] documents in
  omap (fun t =>
          match t with
          | YMapping d => if has_id d then Some d else None
          | YOther => None
          end)
       tasks.

(** A number held in a dictionary of the report. *)
Inductive pyvalue : Type :=
| PyInt (z : Z)
| PyFloat (q : Q).

(** [stats[key]] on an entry of [by_category]. *)
Definition category_getitem (stats : CategorySummary) (key : string)
  : result pyvalue :=
  if String.eqb key "count" then Ok (PyInt (count stats))
  else if String.eqb key "avg_call_reduction"
  then Ok (PyFloat (avg_call_reduction stats))
  else if String.eqb key "avg_token_reduction"
  then Ok (PyFloat (avg_token_reduction stats))
  else if String.eqb key "cs_success_rate"
  then Ok (PyFloat (cs_success_rate stats))
  else Raise (KeyError key).

(** [improvements[key]]. *)
Definition improvements_getitem (d : OverallImprovements) (key : string)
  : result pyvalue :=
  if String.eqb key "avg_call_reduction_pct"
  then Ok (PyFloat (avg_call_reduction_pct d))
  else if String.eqb key "median_call_reduction_pct"
  then Ok (PyFloat (median_call_reduction_pct d))
  else if String.eqb key "avg_token_reduction_pct"
  then Ok (PyFloat (avg_token_reduction_pct d))
  else if String.eqb key "median_token_reduction_pct"
  then Ok (PyFloat (median_token_reduction_pct d))
  else if String.eqb key "avg_time_reduction_pct"
  then Ok (PyFloat (avg_time_reduction_pct d))
  else Raise (KeyError key).

(** [success[key]]. *)
Definition success_getitem (d : SuccessRates) (key : string)
  : result pyvalue :=
  if String.eqb key "baseline" then Ok (PyFloat (rate_baseline d))
  else if String.eqb key "cs_hybrid" then Ok (PyFloat (rate_cs_hybrid d))
  else if String.eqb key "improvement" then Ok (PyFloat (rate_improvement d))
  else Raise (KeyError key).

(** [pr[key]]. *)
Definition precision_recall_getitem (d : PrecisionRecall) (key : string)
  : result pyvalue :=
  if String.eqb key "baseline_precision"
  then Ok (PyFloat (pr_baseline_precision d))
  else if String.eqb key "cs_precision"
  then Ok (PyFloat (pr_cs_precision d))
  else if String.eqb key "baseline_recall"
  then Ok (PyFloat (pr_baseline_recall d))
  else if String.eqb key "cs_recall" then Ok (PyFloat (pr_cs_recall d))
  else if String.eqb key "precision_improvement"
  then Ok (PyFloat (pr_precision_improvement d))
  else if String.eqb key "recall_improvement"
  then Ok (PyFloat (pr_recall_improvement d))
  else Raise (KeyError key).

(** [summary[key]] for the four remaining keys of the report. *)
Definition report_overall_improvements (r : report)
  : result OverallImprovements :=
  match r with
  | EmptyReport => Raise (KeyError "overall_improvements")
  | Report s => Ok (overall_improvements s)
  end.

Definition report_success_rates (r : report) : result SuccessRates :=
  match r with
  | EmptyReport => Raise (KeyError "success_rates")
  | Report s => Ok (success_rates s)
  end.

Definition report_precision_recall (r : report) : result PrecisionRecall :=
  match r with
  | EmptyReport => Raise (KeyError "precision_recall")
  | Report s => Ok (precision_recall s)
  end.

Definition report_by_category (r : report)
  : result (list (string * CategorySummary)) :=
  match r with
  | EmptyReport => Raise (KeyError "by_category")
  | Report s => Ok (by_category s)
  end.

(** The loop of [print_summary] over [summary['by_category'].items()]. *)
Fixpoint print_categories (items : list (string * CategorySummary))
  : result unit :=
  match items with
  | [] => Ok tt
  | (cat, stats) :: rest =>
      _ ← category_getitem stats "count";
      _ ← category_getitem stats "avg_call_reduction_pct";
      _ ← category_getitem stats "avg_token_reduction_pct";
      _ ← category_getitem stats "cs_success_rate";
      print_categories rest
  end.

(** [print_summary]: the dictionary reads of the function in the order it
    performs them; the formatted lines themselves are not kept. *)
Definition print_summary (summary : report) : result unit :=
  _ ← report_total_tasks summary;
  improvements ← report_overall_improvements summary;
  _ ← improvements_getitem improvements "avg_call_reduction_pct";
  _ ← improvements_getitem improvements "median_call_reduction_pct";
  _ ← improvements_getitem improvements "avg_token_reduction_pct";
  _ ← improvements_getitem improvements "median_token_reduction_pct";
  _ ← improvements_getitem improvements "avg_time_reduction_pct";
  success ← report_success_rates summary;
  _ ← success_getitem success "baseline";
  _ ← success_getitem success "cs_hybrid";
  _ ← success_getitem success "improvement";
  pr ← report_precision_recall summary;
  _ ← precision_recall_getitem pr "baseline_precision";
  _ ← precision_recall_getitem pr "cs_precision";
  _ ← precision_recall_getitem pr "precision_improvement";
  _ ← precision_recall_getitem pr "baseline_recall";
  _ ← precision_recall_getitem pr "cs_recall";
  _ ← precision_recall_getitem pr "recall_improvement";
  categories ← report_by_category summary;
  print_categories categories.

(** ** Vocabulary of the properties *)

(** The number of results flagged relevant, counted on the list itself. *)
Definition hits (l : list SearchResult) : nat :=
  length (List.filter relevant l).

(** The contract of the retrieval collaborators: ranks [1, 2, ..., n] in list
    order and pairwise distinct identifiers. *)
Definition ranks_from_one (l : list SearchResult) : bool :=
  bool_decide (map rank l = map Z.of_nat (seq 1 (length l))).

Definition distinct_ids (l : list SearchResult) : bool :=
  bool_decide (NoDup (map doc_id l)).

Definition well_formed_ranking (l : list SearchResult) : bool :=
  ranks_from_one l && distinct_ids l.

(** The discount of the 1-based position [p], and the positional sum
    [flag_p * discount p + flag_(p+1) * discount (p+1) + ...] over a list of
    relevance flags that starts at position [p]. *)
Definition discount (p : nat) : R := (1 / log2 (INR p + 1))%R.

Fixpoint dcg_positions (p : nat) (flags : list bool) : R :=
  match flags with
  | [] => 0%R
  | b :: rest => ((if b then discount p else 0) + dcg_positions (S p) rest)%R
  end.

(** Overwriting the stored rank of every result. *)
Definition rerank (f : SearchResult -> Z) (l : list SearchResult)
  : list SearchResult :=
  map (fun r => mkSearchResult (doc_id r) (score r) (f r) (relevant r)) l.

(** A query is judged when the judgment mapping holds a non-empty set for
    it; its average precision is taken on its results joined against that
    set, with the cardinality of the set as the number of relevant
    documents. *)
Definition judged (relevance_judgments : gmap string (gset string))
    (item : string * list SearchResult) : bool :=
  match relevance_judgments !! item.1 with
  | Some docs => negb (bool_decide (docs = ∅))
  | None => false
  end.

Definition query_average_precision
    (relevance_judgments : gmap string (gset string))
    (item : string * list SearchResult) : result Q :=
  match relevance_judgments !! item.1 with
  | Some docs => average_precision (mark docs item.2) (Z.of_nat (size docs))
  | None => Ok 0%Q
  end.

(** A rational in the closed unit interval, and a metric bundle all of whose
    fields are. *)
Definition unit_Q (q : Q) : Prop := (0 <= q)%Q /\ (q <= 1)%Q.

Definition unit_bundle (b : EvaluationResult) : Prop :=
  unit_Q (precision_at_1 b) /\ unit_Q (precision_at_5 b)
  /\ unit_Q (precision_at_10 b) /\ unit_Q (recall_at_10 b)
  /\ unit_Q (mrr b) /\ (0 <= ndcg_at_10 b <= 1)%R
  /\ unit_Q (average_precision_of b).

(** The ranking and the judgment set of the example at the end of
    [metrics.py]. *)
Definition example_results : list SearchResult :=
  [mkSearchResult "doc1" (95 # 100) 1 false;
   mkSearchResult "doc2" (87 # 100) 2 false;
   mkSearchResult "doc3" (76 # 100) 3 false;
   mkSearchResult "doc4" (68 # 100) 4 false;
   mkSearchResult "doc5" (55 # 100) 5 false].

Definition example_relevant_docs : gset string :=
  {[ "doc1"; "doc3"; "doc7" ]}.

(** A ranking that breaks the collaborators' contract twice: the identifier
    is repeated and both ranks are 5. *)
Definition malformed_results : list SearchResult :=
  [mkSearchResult "a" 1 5 false; mkSearchResult "a" 1 5 false].

(** [sum(...)] of integers. *)
Fixpoint Zsum (l : list Z) : Z :=
  match l with
  | [] => 0%Z
  | x :: t => (x + Zsum t)%Z
  end.

(** A task, two collaborators that return a run for every task, and a
    hybrid collaborator that raises on the task [t2]. *)
Definition example_task (tid : string) : task_dict :=
  <["id" := tid]> (<["task" := "locate the tokenizer"]>
                   (<["category" := "search"]> ∅)).

Definition example_baseline : task_dict -> result AgentRun :=
  fun _ => Ok (mkAgentRun 10 2 1000 (1 # 2) (1 # 2) false).

Definition example_cs : task_dict -> result AgentRun :=
  fun _ => Ok (mkAgentRun 4 1 200 (3 # 4) 1 true).

Definition flaky_cs : task_dict -> result AgentRun :=
  fun task =>
    if bool_decide (task !! "id" = Some "t2")
    then Raise (CollaboratorError "cs timed out")
    else example_cs task.

Definition example_runner : TestRunner := TestRunner_init "/repo" true.

(** The evaluation of [task] returns the record [m]. *)
Definition evaluates_to
    (baseline_execute_task cs_execute_task : task_dict -> result AgentRun)
    (self : TestRunner) (task : task_dict) (m : ComparisonMetrics) : Prop :=
  run_single_task baseline_execute_task cs_execute_task self task = Ok m.

(** Overwriting the relevance flag a caller stored in every result. *)
Definition reflag (f : SearchResult -> bool) (l : list SearchResult)
  : list SearchResult :=
  map (fun r => mkSearchResult (doc_id r) (score r) (rank r) (f r)) l.

(** The nodes [load_tasks] looks at in a document: the entries of a
    sequence, or the document itself. *)
Definition document_nodes (doc : yaml_document) : list yaml_value :=
  match doc with
  | YSequence items => items
  | YSingle v => [v]
  end.

(** A node that is a task: a mapping with an ['id']. *)
Definition task_of_node (v : yaml_value) : option task_dict :=
  match v with
  | YMapping d => if has_id d then Some d else None
  | YOther => None
  end.

(** The buckets [generate_summary_report] builds before it summarises
    them, and the records of one category. *)
Definition group_by_category (l : list ComparisonMetrics)
  : list (string * list ComparisonMetrics) :=
  foldl (fun cats metric =>
           categories_append (task_category metric) metric cats)
        [] l.

Definition records_of_category (c : string) (l : list ComparisonMetrics)
  : list ComparisonMetrics :=
  List.filter (fun m => String.eqb (task_category m) c) l.

(** The arithmetic mean of a field over the records. *)
Definition mean_by (f : ComparisonMetrics -> Q) (l : list ComparisonMetrics)
  : Q :=
  (Qsum (map f l) / inject_Z (len l))%Q.

(** The record [run_single_task] returns for the example task [t1] and the
    two example agents. *)
Definition example_record : ComparisonMetrics :=
  Eval vm_compute in
    match run_single_task example_baseline example_cs example_runner
            (example_task "t1") with
    | Ok m => m
    | Raise _ =>
        mkComparisonMetrics "" "" "" 0 0 0 0 0 false 0 0 0 0 0 false
                            0 0 0 0 0
    end.

(** The buckets [cats] partition the records [l] by category: distinct
    keys, every bucket the non-empty list of the records of its key, and
    every record's category among the keys. *)
Definition groups_of (cats : list (string * list ComparisonMetrics))
    (l : list ComparisonMetrics) : Prop :=
  NoDup (map fst cats)
  /\ Forall (fun e => e.2 = records_of_category e.1 l /\ e.2 <> []) cats
  /\ Forall (fun m => task_category m ∈ map fst cats) l.

(** * Properties *)

(** ** Python primitives *)

(** Closed comparisons of rational constants. *)
Ltac q_closed := unfold Qle, Qlt, Qeq; simpl; lia.

Lemma truediv_ok (a b : Q) : ~ (b == 0)%Q -> truediv a b = Ok (a / b)%Q.
Proof.
  intros Hb. unfold truediv.
  destruct (Qeq_bool b 0) eqn:E; [|reflexivity].
  apply Qeq_bool_eq in E. contradiction.
Qed.

Lemma truediv_zero (a b : Q) : (b == 0)%Q -> truediv a b = Raise ZeroDivisionError.
Proof.
  intros Hb. unfold truediv. now rewrite (Qeq_eq_bool _ _ Hb).
Qed.

Lemma inject_Z_nonzero (z : Z) : z <> 0%Z -> ~ (inject_Z z == 0)%Q.
Proof.
  intros Hz E. apply Hz. change 0%Q with (inject_Z 0) in E.
  apply inject_Z_injective. exact E.
Qed.

Lemma float_overflow_value : float_overflow = (2 ^ 1024 - 2 ^ 970)%Z.
Proof. vm_compute. reflexivity. Qed.

(** Every container length of a Python process, at most [sys.maxsize], is
    below the overflow threshold. *)
Lemma float_overflow_large : (2 ^ 63 <= float_overflow)%Z.
Proof. vm_compute. discriminate. Qed.

Lemma float_overflow_pos : (0 < float_overflow)%Z.
Proof. reflexivity. Qed.

Lemma float_of_int_ok (z : Z) :
  (Z.abs z < float_overflow)%Z -> float_of_int z = Ok (inject_Z z).
Proof.
  intros Hz. unfold float_of_int.
  destruct (Z.leb_spec float_overflow (Z.abs z)); [lia|reflexivity].
Qed.

Lemma float_of_int_overflow (z : Z) :
  (float_overflow <= Z.abs z)%Z -> float_of_int z = Raise OverflowError.
Proof.
  intros Hz. unfold float_of_int.
  destruct (Z.leb_spec float_overflow (Z.abs z)); [reflexivity|lia].
Qed.

Lemma float_div_int_ok (a : Q) (b : Z) :
  b <> 0%Z -> (Z.abs b < float_overflow)%Z ->
  float_div_int a b = Ok (a / inject_Z b)%Q.
Proof.
  intros Hb Hlt. unfold float_div_int. rewrite float_of_int_ok by exact Hlt.
  simpl. apply truediv_ok, inject_Z_nonzero, Hb.
Qed.

Lemma float_div_int_zero (a : Q) :
  float_div_int a 0 = Raise ZeroDivisionError.
Proof.
  unfold float_div_int.
  rewrite float_of_int_ok by (pose proof float_overflow_pos; lia).
  simpl. now apply truediv_zero.
Qed.

Lemma float_div_int_overflow (a : Q) (b : Z) :
  (float_overflow <= Z.abs b)%Z -> float_div_int a b = Raise OverflowError.
Proof.
  intros Hb. unfold float_div_int. now rewrite float_of_int_overflow.
Qed.

(** The three outcomes of [a / b] for a float [a] and an int [b]. *)
Lemma float_div_int_cases (a : Q) (b : Z) :
  (b = 0%Z /\ float_div_int a b = Raise ZeroDivisionError)
  \/ ((float_overflow <= Z.abs b)%Z
      /\ float_div_int a b = Raise OverflowError)
  \/ (b <> 0%Z /\ (Z.abs b < float_overflow)%Z
      /\ float_div_int a b = Ok (a / inject_Z b)%Q).
Proof.
  destruct (Z.eq_dec b 0%Z) as [->|Hb].
  { left. split; [reflexivity|apply float_div_int_zero]. }
  right. destruct (Z_le_gt_dec float_overflow (Z.abs b)) as [Hge|Hlt].
  - left. split; [exact Hge|now apply float_div_int_overflow].
  - right. split; [exact Hb|]. split; [lia|].
    apply float_div_int_ok; [exact Hb|lia].
Qed.

Lemma slice_to_nonneg {A : Type} (l : list A) (k : Z) :
  (0 <= k)%Z -> slice_to l k = firstn (Z.to_nat k) l.
Proof.
  intros Hk. unfold slice_to.
  destruct (0 <=? k)%Z eqn:E; [reflexivity|]. apply Z.leb_gt in E. lia.
Qed.

Lemma sum_ones_hits {A : Type} (p : A -> bool) (l : list A) (acc : Z) :
  sum_ones p l acc = (acc + Z.of_nat (length (List.filter p l)))%Z.
Proof.
  revert acc. induction l as [|x t IH]; intros acc; simpl.
  - lia.
  - rewrite IH. destruct (p x); simpl; lia.
Qed.

Lemma hits_firstn_le (n : nat) (l : list SearchResult) :
  (hits (firstn n l) <= n)%nat.
Proof.
  unfold hits. revert l. induction n as [|n IH]; intros [|x t]; simpl; try lia.
  specialize (IH t). destruct (relevant x); simpl; lia.
Qed.

Lemma hits_firstn_mono (n m : nat) (l : list SearchResult) :
  (n <= m)%nat -> (hits (firstn n l) <= hits (firstn m l))%nat.
Proof.
  unfold hits. revert m l. induction n as [|n IH]; intros m l Hnm.
  - simpl. lia.
  - destruct m as [|m]; [lia|]. destruct l as [|x t]; simpl; [lia|].
    assert (Hle : (n <= m)%nat) by lia. specialize (IH m t Hle).
    destruct (relevant x); simpl; lia.
Qed.

(** ** Precision and recall *)

Lemma precision_at_k_guard (results : list SearchResult) (k : Z) :
  results = [] \/ k = 0%Z -> precision_at_k results k = Ok 0%Q.
Proof.
  unfold precision_at_k. intros [->| ->]; [reflexivity|].
  now rewrite orb_true_r.
Qed.

Lemma precision_at_k_quotient (results : list SearchResult) (k : Z) :
  results <> [] -> (0 < k)%Z ->
  precision_at_k results k
  = Ok (inject_Z (Z.of_nat (hits (firstn (Z.to_nat k) results)))
        / inject_Z k)%Q.
Proof.
  intros Hres Hk. unfold precision_at_k.
  destruct results as [|r rest]; [contradiction|].
  destruct (Z.eqb_spec k 0) as [->|Hk0]; [lia|].
  simpl orb. cbv iota.
  rewrite slice_to_nonneg by lia.
  rewrite sum_ones_hits, Z.add_0_l.
  now rewrite truediv_ok by (apply inject_Z_nonzero; assumption).
Qed.

(** A count that does not exceed a positive divisor gives a quotient in the
    unit interval. *)
Lemma unit_quotient (c : nat) (k : Z) :
  (0 < k)%Z -> (Z.of_nat c <= k)%Z ->
  unit_Q (inject_Z (Z.of_nat c) / inject_Z k).
Proof.
  intros Hk Hc.
  assert (Hkq : (0 < inject_Z k)%Q).
  { change 0%Q with (inject_Z 0). rewrite <- Zlt_Qlt. lia. }
  split.
  - apply Qle_shift_div_l; [assumption|]. rewrite Qmult_0_l.
    change 0%Q with (inject_Z 0). rewrite <- Zle_Qle. lia.
  - apply Qle_shift_div_r; [assumption|]. rewrite Qmult_1_l.
    now rewrite <- Zle_Qle.
Qed.

Lemma precision_at_k_unit (results : list SearchResult) (k : Z) :
  (0 <= k)%Z ->
  exists q : Q, precision_at_k results k = Ok q /\ unit_Q q.
Proof.
  intros Hk.
  destruct results as [|r rest].
  { exists 0%Q. split; [reflexivity|split; q_closed]. }
  destruct (Z.eq_dec k 0%Z) as [->|Hk0].
  { exists 0%Q. split; [reflexivity|split; q_closed]. }
  eexists. split; [apply precision_at_k_quotient; [discriminate|lia]|].
  apply unit_quotient; [lia|].
  pose proof (hits_firstn_le (Z.to_nat k) (r :: rest)). lia.
Qed.

(** C6. For a cut-off [k >= 0], [precision_at_k] returns a value and does not
    raise; the value is the number of relevant results among the first [k]
    divided by [k], it lies between 0 and 1, and it is 0 when [k] is 0 or the
    list is empty. *)
Theorem precision_at_k_spec (results : list SearchResult) (k : Z) :
  (0 <= k)%Z ->
  exists q : Q,
    precision_at_k results k = Ok q
    /\ ((0 < k)%Z ->
        (q == inject_Z (Z.of_nat (hits (firstn (Z.to_nat k) results)))
              / inject_Z k)%Q)
    /\ (0 <= q)%Q /\ (q <= 1)%Q
    /\ (k = 0%Z \/ results = [] -> q = 0%Q).
Proof.
  intros Hk.
  destruct (Z.eq_dec k 0%Z) as [->|Hk0].
  { exists 0%Q. rewrite precision_at_k_guard by now right.
    split; [reflexivity|]. split; [lia|].
    split; [q_closed|]. split; [q_closed|reflexivity]. }
  destruct results as [|r rest].
  { exists 0%Q. rewrite precision_at_k_guard by now left.
    split; [reflexivity|]. split.
    - intros _. rewrite firstn_nil. simpl. unfold Qdiv.
      now rewrite Qmult_0_l.
    - split; [q_closed|]. split; [q_closed|reflexivity]. }
  set (l := r :: rest).
  rewrite precision_at_k_quotient by (try discriminate; lia).
  eexists. split; [reflexivity|]. split; [intros _; reflexivity|].
  assert (Hu : unit_Q (inject_Z (Z.of_nat (hits (firstn (Z.to_nat k) l)))
                       / inject_Z k)).
  { apply unit_quotient; [lia|].
    pose proof (hits_firstn_le (Z.to_nat k) l). lia. }
  destruct Hu as [Hlo Hhi].
  split; [exact Hlo|]. split; [exact Hhi|].
  intros [->|Hnil]; [lia|discriminate].
Qed.

(** The C6 statement at a cut-off of 2 on a three-element ranking. *)
Lemma precision_at_k_spec_witness :
  exists q : Q,
    precision_at_k
      [mkSearchResult "a" 1 1 true; mkSearchResult "b" 1 2 false;
       mkSearchResult "c" 1 3 true] 2 = Ok q
    /\ (q == 1 # 2)%Q.
Proof.
  destruct (precision_at_k_spec
              [mkSearchResult "a" 1 1 true; mkSearchResult "b" 1 2 false;
               mkSearchResult "c" 1 3 true] 2 ltac:(lia))
    as (q & Hq & Hval & _).
  exists q. split; [exact Hq|]. rewrite Hval by lia. reflexivity.
Defined.

Lemma Qdiv_0_num (b : Q) : (0 / b == 0)%Q.
Proof. unfold Qdiv. apply Qmult_0_l. Qed.

Lemma inject_Z_pos (z : Z) : (0 < z)%Z -> (0 < inject_Z z)%Q.
Proof. intros Hz. change 0%Q with (inject_Z 0). now rewrite <- Zlt_Qlt. Qed.

Lemma Qdiv_le_mono_num (a b c : Q) :
  (0 < c)%Q -> (a <= b)%Q -> (a / c <= b / c)%Q.
Proof.
  intros Hc Hab. unfold Qdiv. apply Qmult_le_compat_r; [assumption|].
  apply Qlt_le_weak, Qinv_lt_0_compat, Hc.
Qed.

(** The value of [recall_at_k] on a non-negative cut-off: no guard of the
    function changes the quotient it computes. *)
Lemma recall_at_k_value (results : list SearchResult) (k t : Z) :
  (0 <= k)%Z -> t <> 0%Z ->
  exists q : Q,
    recall_at_k results k t = Ok q
    /\ (q == inject_Z (Z.of_nat (hits (firstn (Z.to_nat k) results)))
             / inject_Z t)%Q.
Proof.
  intros Hk Ht. unfold recall_at_k.
  destruct results as [|r rest].
  { exists 0%Q. split; [reflexivity|]. rewrite firstn_nil. simpl.
    symmetry. apply Qdiv_0_num. }
  destruct (Z.eqb_spec k 0) as [->|Hk0].
  { exists 0%Q. split; [reflexivity|]. simpl. symmetry. apply Qdiv_0_num. }
  destruct (Z.eqb_spec t 0) as [->|_]; [contradiction|].
  simpl orb. cbv iota.
  rewrite slice_to_nonneg by assumption.
  rewrite sum_ones_hits, Z.add_0_l.
  rewrite truediv_ok by (apply inject_Z_nonzero; assumption).
  eexists. split; reflexivity.
Qed.

(** C8, on cut-offs that are ranks.  For a fixed result list and a fixed
    positive number of relevant documents, [recall_at_k] returns a value at
    every non-negative cut-off and the value does not decrease when the
    cut-off grows. *)
Theorem recall_at_k_monotone (results : list SearchResult) (k1 k2 t : Z) :
  (0 < t)%Z -> (0 <= k1)%Z -> (k1 <= k2)%Z ->
  exists q1 q2 : Q,
    recall_at_k results k1 t = Ok q1
    /\ recall_at_k results k2 t = Ok q2
    /\ (q1 <= q2)%Q.
Proof.
  intros Ht Hk1 Hk12.
  destruct (recall_at_k_value results k1 t) as (q1 & E1 & V1); [lia..|].
  destruct (recall_at_k_value results k2 t) as (q2 & E2 & V2); [lia..|].
  exists q1, q2. repeat split; try assumption.
  rewrite V1, V2. apply Qdiv_le_mono_num; [now apply inject_Z_pos|].
  rewrite <- Zle_Qle. apply inj_le, hits_firstn_mono. lia.
Qed.

(** The C8 statement between the cut-offs 1 and 2, one relevant document. *)
Lemma recall_at_k_monotone_witness :
  exists q1 q2 : Q,
    recall_at_k [mkSearchResult "a" 1 1 false; mkSearchResult "b" 1 2 true]
      1 1 = Ok q1
    /\ recall_at_k [mkSearchResult "a" 1 1 false; mkSearchResult "b" 1 2 true]
         2 1 = Ok q2
    /\ (q1 <= q2)%Q.
Proof.
  apply (recall_at_k_monotone
           [mkSearchResult "a" 1 1 false; mkSearchResult "b" 1 2 true]
           1 2 1); lia.
Defined.

(** C8 as stated, over all integer cut-offs, fails: a negative cut-off is a
    Python slice that drops elements from the end, so the cut-off -1 keeps
    the relevant head of a two-element list while the larger cut-off 0
    returns 0. *)
Lemma recall_at_k_negative_cutoff_decreases :
  (-1 <= 0)%Z
  /\ recall_at_k [mkSearchResult "a" 1 1 true; mkSearchResult "b" 1 2 false]
       (-1) 1 = Ok 1%Q
  /\ recall_at_k [mkSearchResult "a" 1 1 true; mkSearchResult "b" 1 2 false]
       0 1 = Ok 0%Q
  /\ ~ (1 <= 0)%Q.
Proof.
  split; [lia|]. split; [reflexivity|]. split; [reflexivity|].
  q_closed.
Qed.

(** ** Reciprocal rank and discounted cumulative gain *)

Lemma mrr_loop_first_relevant (pre post : list SearchResult)
    (x : SearchResult) :
  hits pre = 0%nat -> relevant x = true ->
  mrr_loop (pre ++ x :: post) = float_div_int 1 (rank x).
Proof.
  intros Hpre Hx. induction pre as [|y pre IH]; simpl.
  - now rewrite Hx.
  - unfold hits in Hpre. simpl in Hpre.
    destruct (relevant y); [discriminate|]. apply IH, Hpre.
Qed.

Lemma mrr_loop_no_relevant (l : list SearchResult) :
  hits l = 0%nat -> mrr_loop l = Ok 0%Q.
Proof.
  intros H. induction l as [|y l IH]; simpl; [reflexivity|].
  unfold hits in H. simpl in H.
  destruct (relevant y); [discriminate|]. apply IH, H.
Qed.

Lemma dcg_loop_positions (p : nat) (l : list SearchResult) (acc : R) :
  dcg_loop (Z.of_nat p) l acc = (acc + dcg_positions p (map relevant l))%R.
Proof.
  revert p acc. induction l as [|r rest IH]; intros p acc; simpl.
  - lra.
  - replace (Z.of_nat p + 1)%Z with (Z.of_nat (S p)) by lia.
    rewrite IH. unfold discount.
    rewrite <- S_INR, INR_IZR_INZ.
    destruct (relevant r); unfold Rdiv; lra.
Qed.

(** [discounted_cumulative_gain] is the positional sum over the relevance
    flags of the window [results[:k]], for every list and every cut-off. *)
Lemma discounted_cumulative_gain_positions (results : list SearchResult)
    (k : Z) :
  discounted_cumulative_gain results k
  = dcg_positions 1 (map relevant (slice_to results k)).
Proof.
  unfold discounted_cumulative_gain.
  destruct results as [|r rest].
  { simpl. unfold slice_to. destruct (0 <=? k)%Z; now rewrite firstn_nil. }
  destruct (Z.eqb_spec k 0) as [->|Hk]; [reflexivity|].
  simpl orb. cbv iota.
  change 1%Z with (Z.of_nat 1). rewrite dcg_loop_positions. lra.
Qed.

Lemma slice_to_rerank (f : SearchResult -> Z) (l : list SearchResult)
    (k : Z) :
  map relevant (slice_to (rerank f l) k) = map relevant (slice_to l k).
Proof.
  unfold slice_to, rerank. rewrite length_map.
  destruct (0 <=? k)%Z; rewrite <- !firstn_map, map_map; reflexivity.
Qed.

Lemma log2_2 : log2 2 = 1%R.
Proof.
  unfold log2. pose proof ln_lt_2. field. lra.
Qed.

(** C7. [mean_reciprocal_rank] evaluates [1.0 / r] on the [rank] field [r]
    of the first relevant element of the list, wherever that element stands
    and for every integer [r]: the quotient [1 / r] when [r] is not 0 and
    has a float, [ZeroDivisionError] when [r] is 0, and [OverflowError] when
    the magnitude of [r] is [2**1024 - 2**970] or more.
    [discounted_cumulative_gain] is a sum over window positions that no
    stored rank can change; on a single relevant result stored with rank 5
    the first yields 1/5 and the second the position-1 gain 1. *)
Theorem mrr_reads_rank_dcg_reads_position :
  (forall (pre post : list SearchResult) (x : SearchResult),
      hits pre = 0%nat -> relevant x = true ->
      mean_reciprocal_rank (pre ++ x :: post) = float_div_int 1 (rank x)
      /\ (rank x <> 0%Z -> (Z.abs (rank x) < float_overflow)%Z ->
          mean_reciprocal_rank (pre ++ x :: post)
          = Ok (1 / inject_Z (rank x))%Q)
      /\ (rank x = 0%Z ->
          mean_reciprocal_rank (pre ++ x :: post) = Raise ZeroDivisionError)
      /\ ((float_overflow <= Z.abs (rank x))%Z ->
          mean_reciprocal_rank (pre ++ x :: post) = Raise OverflowError))
  /\ (forall (results : list SearchResult) (k : Z)
             (f : SearchResult -> Z),
         discounted_cumulative_gain (rerank f results) k
         = discounted_cumulative_gain results k
         /\ discounted_cumulative_gain results k
            = dcg_positions 1 (map relevant (slice_to results k)))
  /\ (mean_reciprocal_rank [mkSearchResult "d" 1 5 true] = Ok (1 # 5)%Q
      /\ discounted_cumulative_gain [mkSearchResult "d" 1 5 true] 1 = 1%R).
Proof.
  split; [|split].
  - intros pre post x Hpre Hx.
    assert (E : mean_reciprocal_rank (pre ++ x :: post)
                = float_div_int 1 (rank x)).
    { unfold mean_reciprocal_rank.
      replace (is_empty (pre ++ x :: post)) with false
        by (destruct pre; reflexivity).
      now apply mrr_loop_first_relevant. }
    split; [exact E|]. rewrite E. split; [|split].
    + intros Hr Hlt. now apply float_div_int_ok.
    + intros ->. apply float_div_int_zero.
    + apply float_div_int_overflow.
  - intros results k f. split.
    + rewrite !discounted_cumulative_gain_positions.
      now rewrite slice_to_rerank.
    + apply discounted_cumulative_gain_positions.
  - split; [reflexivity|].
    rewrite discounted_cumulative_gain_positions. simpl.
    unfold discount. rewrite INR_1.
    replace (1 + 1)%R with 2%R by lra. rewrite log2_2. lra.
Qed.

(** The first part of C7 on a list whose first relevant element stands at
    position 2 and carries rank 7. *)
Lemma mrr_reads_rank_dcg_reads_position_witness :
  mean_reciprocal_rank
    ([mkSearchResult "a" 1 1 false] ++ mkSearchResult "b" 1 7 true :: [])
  = Ok (1 / inject_Z 7)%Q.
Proof.
  apply (proj1 mrr_reads_rank_dcg_reads_position
           [mkSearchResult "a" 1 1 false] [] (mkSearchResult "b" 1 7 true));
    [reflexivity|reflexivity| |]; simpl; [lia|reflexivity].
Defined.

(** ** Normalised gain *)

Lemma log2_pos (x : R) : (1 < x)%R -> (0 < log2 x)%R.
Proof.
  intros Hx. unfold log2. pose proof ln_lt_2 as H2.
  assert (Hln : (0 < ln x)%R).
  { rewrite <- ln_1. apply ln_increasing; lra. }
  apply Rdiv_lt_0_compat; lra.
Qed.

Lemma log2_le (x y : R) : (0 < x)%R -> (x <= y)%R -> (log2 x <= log2 y)%R.
Proof.
  intros Hx [Hlt| ->]; [|lra].
  unfold log2. pose proof ln_lt_2 as H2.
  pose proof (ln_increasing x y Hx Hlt) as Hln.
  apply Rmult_le_compat_r; [|lra].
  apply Rlt_le, Rinv_0_lt_compat. lra.
Qed.

Lemma discount_pos (p : nat) : (1 <= p)%nat -> (0 < discount p)%R.
Proof.
  intros Hp. unfold discount. apply Rdiv_lt_0_compat; [lra|].
  apply log2_pos. apply le_INR in Hp. simpl in Hp. lra.
Qed.

Lemma discount_antitone (p q : nat) :
  (1 <= p)%nat -> (p <= q)%nat -> (discount q <= discount p)%R.
Proof.
  intros Hp Hpq. unfold discount.
  pose proof (le_INR _ _ Hp) as Hp'. pose proof (le_INR _ _ Hpq) as Hpq'.
  simpl in Hp'.
  assert (Hlp : (0 < log2 (INR p + 1))%R) by (apply log2_pos; lra).
  assert (Hle : (log2 (INR p + 1) <= log2 (INR q + 1))%R)
    by (apply log2_le; lra).
  unfold Rdiv. rewrite !Rmult_1_l. apply Rinv_le_contravar; assumption.
Qed.

Lemma ideal_sum_nonneg (p c : nat) :
  (1 <= p)%nat -> (0 <= dcg_positions p (repeat true c))%R.
Proof.
  revert p. induction c as [|c IH]; intros p Hp; simpl; [lra|].
  pose proof (discount_pos p Hp). specialize (IH (S p) ltac:(lia)). lra.
Qed.

Lemma ideal_sum_pos (p c : nat) :
  (1 <= p)%nat -> (1 <= c)%nat -> (0 < dcg_positions p (repeat true c))%R.
Proof.
  intros Hp Hc. destruct c as [|c]; [lia|]. simpl.
  pose proof (discount_pos p Hp).
  pose proof (ideal_sum_nonneg (S p) c ltac:(lia)). lra.
Qed.

Lemma ideal_sum_shift (p c : nat) :
  (1 <= p)%nat ->
  (dcg_positions (S p) (repeat true c) <= dcg_positions p (repeat true c))%R.
Proof.
  revert p. induction c as [|c IH]; intros p Hp; simpl; [lra|].
  pose proof (discount_antitone p (S p) Hp ltac:(lia)).
  specialize (IH (S p) ltac:(lia)). lra.
Qed.

Lemma ideal_sum_mono (p c m : nat) :
  (1 <= p)%nat -> (c <= m)%nat ->
  (dcg_positions p (repeat true c) <= dcg_positions p (repeat true m))%R.
Proof.
  revert p m. induction c as [|c IH]; intros p m Hp Hcm.
  - simpl. now apply ideal_sum_nonneg.
  - destruct m as [|m]; [lia|]. simpl.
    specialize (IH (S p) m ltac:(lia) ltac:(lia)). lra.
Qed.

Lemma dcg_positions_nonneg (p : nat) (flags : list bool) :
  (1 <= p)%nat -> (0 <= dcg_positions p flags)%R.
Proof.
  revert p. induction flags as [|b rest IH]; intros p Hp; simpl; [lra|].
  pose proof (discount_pos p Hp). specialize (IH (S p) ltac:(lia)).
  destruct b; lra.
Qed.

(** A ranking never gains more than the ranking that puts the same number
    of relevant results first. *)
Lemma dcg_positions_le_ideal (p : nat) (l : list SearchResult) :
  (1 <= p)%nat ->
  (dcg_positions p (map relevant l)
   <= dcg_positions p (repeat true (hits l)))%R.
Proof.
  revert p. induction l as [|r rest IH]; intros p Hp; simpl; [lra|].
  specialize (IH (S p) ltac:(lia)). unfold hits in *. simpl.
  destruct (relevant r); simpl.
  - lra.
  - pose proof (ideal_sum_shift p (length (List.filter relevant rest)) Hp).
    lra.
Qed.

Lemma py_range_length (a b : Z) : length (py_range a b) = Z.to_nat (b - a).
Proof. unfold py_range. now rewrite length_map, length_seq. Qed.

Lemma map_const_repeat {A B : Type} (c : B) (l : list A) :
  map (fun _ => c) l = repeat c (length l).
Proof. induction l as [|x t IH]; simpl; [reflexivity|now rewrite IH]. Qed.

Lemma ideal_results_flags (k t : Z) :
  map relevant (ideal_results k t) = repeat true (Z.to_nat (Z.min k t)).
Proof.
  unfold ideal_results. rewrite map_map. simpl.
  rewrite map_const_repeat, py_range_length. f_equal. lia.
Qed.

(** The ideal gain the code computes is the positional sum of
    [min(k, total_relevant)] leading relevant results. *)
Lemma ideal_dcg_value (k t : Z) :
  (0 <= k)%Z ->
  discounted_cumulative_gain (ideal_results k t) k
  = dcg_positions 1 (repeat true (Z.to_nat (Z.min k t))).
Proof.
  intros Hk. rewrite discounted_cumulative_gain_positions.
  rewrite slice_to_nonneg by assumption.
  rewrite firstn_all2; [now rewrite ideal_results_flags|].
  unfold ideal_results. rewrite length_map, py_range_length. lia.
Qed.

Lemma normalized_dcg_guarded (results : list SearchResult) (k t : Z) :
  results = [] \/ k = 0%Z \/ t = 0%Z
  \/ discounted_cumulative_gain (ideal_results k t) k = 0%R ->
  normalized_dcg results k t = 0%R.
Proof.
  unfold normalized_dcg. intros [->|[->|[->|Hideal]]].
  - reflexivity.
  - now rewrite orb_true_r.
  - now rewrite orb_true_r.
  - destruct (is_empty results || (k =? 0)%Z || (t =? 0)%Z); [reflexivity|].
    cbv zeta. destruct (Req_dec_T _ 0); [reflexivity|contradiction].
Qed.

Lemma normalized_dcg_quotient (results : list SearchResult) (k t : Z) :
  results <> [] -> (0 < k)%Z -> (0 < t)%Z ->
  (0 < dcg_positions 1 (repeat true (Z.to_nat (Z.min k t))))%R
  /\ normalized_dcg results k t
     = (discounted_cumulative_gain results k
        / dcg_positions 1 (repeat true (Z.to_nat (Z.min k t))))%R.
Proof.
  intros Hres Hk Ht.
  assert (Hpos : (0 < dcg_positions 1 (repeat true (Z.to_nat (Z.min k t))))%R)
    by (apply ideal_sum_pos; lia).
  split; [exact Hpos|].
  unfold normalized_dcg.
  destruct results as [|r rest]; [contradiction|].
  destruct (Z.eqb_spec k 0) as [->|_]; [lia|].
  destruct (Z.eqb_spec t 0) as [->|_]; [lia|].
  simpl orb. cbv iota zeta.
  rewrite ideal_dcg_value by lia.
  destruct (Req_dec_T _ 0) as [E|_]; [lra|reflexivity].
Qed.

Lemma normalized_dcg_bounds (results : list SearchResult) (k t : Z) :
  (0 <= k)%Z -> (0 <= t)%Z ->
  (Z.of_nat (hits (slice_to results k)) <= t)%Z ->
  (0 <= normalized_dcg results k t <= 1)%R.
Proof.
  intros Hk Ht Hhits.
  destruct results as [|r rest].
  { rewrite normalized_dcg_guarded by auto. lra. }
  destruct (Z.eq_dec k 0%Z) as [->|Hk0].
  { rewrite normalized_dcg_guarded by auto. lra. }
  destruct (Z.eq_dec t 0%Z) as [->|Ht0].
  { rewrite normalized_dcg_guarded by auto. lra. }
  set (l := r :: rest) in *.
  destruct (normalized_dcg_quotient l k t) as [Hpos ->];
    [discriminate|lia|lia|].
  rewrite discounted_cumulative_gain_positions.
  pose proof (dcg_positions_nonneg 1 (map relevant (slice_to l k)) ltac:(lia))
    as Hge.
  pose proof (dcg_positions_le_ideal 1 (slice_to l k) ltac:(lia)) as Hle.
  assert (Hcount : (hits (slice_to l k) <= Z.to_nat (Z.min k t))%nat).
  { pose proof (hits_firstn_le (Z.to_nat k) l) as Hk'.
    rewrite <- slice_to_nonneg in Hk' by assumption. lia. }
  pose proof (ideal_sum_mono 1 _ _ ltac:(lia) Hcount) as Hmono.
  split.
  - apply Rmult_le_pos; [assumption|]. apply Rlt_le, Rinv_0_lt_compat, Hpos.
  - apply Rmult_le_reg_r with (r := dcg_positions 1
                                  (repeat true (Z.to_nat (Z.min k t))));
      [assumption|].
    unfold Rdiv. rewrite Rmult_assoc, Rinv_l by lra. lra.
Qed.

(** C3. On a well-formed input, that is [k >= 0], [total_relevant >= 0] and
    no more relevant results in the top [k] than [total_relevant],
    [normalized_dcg] is at most 1.  It is the gain of the list divided by the
    gain of [min(k, total_relevant)] relevant items at positions
    [1..min(k, total_relevant)], and it is 0 when the list is empty, [k] is 0,
    [total_relevant] is 0 or the ideal gain is 0. *)
Theorem normalized_dcg_at_most_one (results : list SearchResult) (k t : Z) :
  (0 <= k)%Z -> (0 <= t)%Z ->
  (Z.of_nat (hits (firstn (Z.to_nat k) results)) <= t)%Z ->
  (normalized_dcg results k t <= 1)%R
  /\ (results <> [] -> k <> 0%Z -> t <> 0%Z ->
      discounted_cumulative_gain (ideal_results k t) k
      = dcg_positions 1 (repeat true (Z.to_nat (Z.min k t)))
      /\ normalized_dcg results k t
         = (discounted_cumulative_gain results k
            / discounted_cumulative_gain (ideal_results k t) k)%R)
  /\ (results = [] \/ k = 0%Z \/ t = 0%Z
      \/ discounted_cumulative_gain (ideal_results k t) k = 0%R ->
      normalized_dcg results k t = 0%R).
Proof.
  intros Hk Ht Hhits. split; [|split].
  - apply normalized_dcg_bounds; try assumption.
    now rewrite slice_to_nonneg.
  - intros Hres Hk0 Ht0. rewrite ideal_dcg_value by assumption.
    split; [reflexivity|].
    now apply normalized_dcg_quotient; [|lia|lia].
  - apply normalized_dcg_guarded.
Qed.

(** C3 on a ranking whose only relevant result stands second. *)
Lemma normalized_dcg_at_most_one_witness :
  (normalized_dcg
     [mkSearchResult "a" 1 1 false; mkSearchResult "b" 1 2 true] 2 1
   <= 1)%R.
Proof.
  apply (normalized_dcg_at_most_one
           [mkSearchResult "a" 1 1 false; mkSearchResult "b" 1 2 true] 2 1);
    [lia|lia|vm_compute; discriminate].
Defined.

(** ** Average precision *)

Lemma ap_loop_bounds (l : list SearchResult) (i rc : Z) (sp : Q) :
  (0 <= rc)%Z -> (rc < i)%Z ->
  exists s : Q,
    ap_loop i l rc sp = Ok s
    /\ (sp <= s)%Q /\ (s <= sp + inject_Z (Z.of_nat (hits l)))%Q.
Proof.
  revert i rc sp. induction l as [|r rest IH]; intros i rc sp Hrc Hi.
  - exists sp. simpl. repeat split; try apply Qle_refl.
    unfold hits. simpl. rewrite Qplus_0_r. apply Qle_refl.
  - simpl. unfold hits. simpl. destruct (relevant r); simpl.
    + rewrite truediv_ok by (apply inject_Z_nonzero; lia). simpl.
      destruct (IH (i + 1)%Z (rc + 1)%Z
                   (sp + inject_Z (rc + 1) / inject_Z i)%Q)
        as (s & Hs & Hlo & Hhi); [lia..|].
      exists s. split; [exact Hs|].
      assert (Hi' : (0 < inject_Z i)%Q) by (apply inject_Z_pos; lia).
      assert (Hp0 : (0 <= inject_Z (rc + 1) / inject_Z i)%Q).
      { apply Qle_shift_div_l; [assumption|]. rewrite Qmult_0_l.
        change 0%Q with (inject_Z 0). rewrite <- Zle_Qle. lia. }
      assert (Hp1 : (inject_Z (rc + 1) / inject_Z i <= 1)%Q).
      { apply Qle_shift_div_r; [assumption|]. rewrite Qmult_1_l.
        rewrite <- Zle_Qle. lia. }
      fold (hits rest) in Hhi.
      replace (Z.of_nat (S (length (List.filter relevant rest))))
        with (1 + Z.of_nat (hits rest))%Z by (unfold hits; lia).
      rewrite inject_Z_plus. split.
      * eapply Qle_trans; [|exact Hlo].
        rewrite <- (Qplus_0_r sp) at 1. apply Qplus_le_compat;
          [apply Qle_refl|exact Hp0].
      * eapply Qle_trans; [exact Hhi|].
        rewrite Qplus_assoc. apply Qplus_le_compat; [|apply Qle_refl].
        apply Qplus_le_compat; [apply Qle_refl|exact Hp1].
    + destruct (IH (i + 1)%Z rc sp) as (s & Hs & Hlo & Hhi); [lia..|].
      exists s. repeat split; assumption.
Qed.

(** With [total_relevant] converted exactly, [average_precision] returns a
    value; for a positive number of relevant documents it is non-negative,
    and at most 1 when the list holds no more relevant results than that
    number. *)
Lemma average_precision_bounds (results : list SearchResult) (t : Z) :
  exists q : Q,
    average_precision results t = Ok q
    /\ ((0 <= t)%Z -> (0 <= q)%Q)
    /\ ((0 <= t)%Z -> (Z.of_nat (hits results) <= t)%Z -> (q <= 1)%Q)
    /\ (results = [] \/ t = 0%Z -> q = 0%Q).
Proof.
  unfold average_precision.
  destruct results as [|r rest].
  { exists 0%Q. repeat split; intros; try reflexivity; q_closed. }
  destruct (Z.eqb_spec t 0) as [->|Ht].
  { exists 0%Q. repeat split; intros; try reflexivity; q_closed. }
  simpl orb. cbv iota. set (l := r :: rest).
  destruct (ap_loop_bounds l 1 0 0%Q) as (s & Hs & Hlo & Hhi); [lia..|].
  rewrite Hs. simpl.
  rewrite truediv_ok by (apply inject_Z_nonzero; assumption).
  eexists. split; [reflexivity|]. rewrite Qplus_0_l in Hhi.
  repeat split.
  - intros Ht0. apply Qle_shift_div_l; [apply inject_Z_pos; lia|].
    now rewrite Qmult_0_l.
  - intros Ht0 Hh. apply Qle_shift_div_r; [apply inject_Z_pos; lia|].
    rewrite Qmult_1_l. eapply Qle_trans; [exact Hhi|].
    now rewrite <- Zle_Qle.
  - intros [Hnil| ->]; [discriminate|contradiction].
Qed.

(** ** Mean average precision *)

Lemma map_loop_spec (items : list (string * list SearchResult))
    (J : gmap string (gset string)) (acc : list Q) :
  exists aps : list Q,
    Forall2 (fun item ap => query_average_precision J item = Ok ap)
            (List.filter (judged J) items) aps
    /\ map_loop items J acc = Ok (acc ++ aps).
Proof.
  revert acc. induction items as [|[qid res] rest IH]; intros acc.
  - exists []. split; [constructor|]. simpl. now rewrite app_nil_r.
  - simpl. unfold judged at 1, set_is_empty. simpl.
    destruct (J !! qid) as [docs|] eqn:EJ; simpl.
    + destruct (decide (docs = ∅)) as [He|Hne].
      * rewrite !bool_decide_eq_true_2 by assumption. simpl. apply IH.
      * rewrite !bool_decide_eq_false_2 by assumption. simpl.
        destruct (average_precision_bounds (mark docs res) (set_len docs))
          as (ap & Hap & _).
        rewrite Hap. simpl.
        destruct (IH (acc ++ [ap])) as (aps & HF & Hl).
        exists (ap :: aps). split.
        -- constructor; [|exact HF].
           unfold query_average_precision. simpl. rewrite EJ. exact Hap.
        -- rewrite Hl. now rewrite <- app_assoc.
    + rewrite bool_decide_eq_true_2 by reflexivity. apply IH.
Qed.

(** C5. [mean_average_precision] returns a value: the arithmetic mean of the
    average precisions of the judged queries, in which a query with an empty
    or absent judgment set takes no part, and 0 when no query is judged. *)
Theorem mean_average_precision_spec
    (all_results : list (string * list SearchResult))
    (relevance_judgments : gmap string (gset string)) :
  exists (aps : list Q) (m : Q),
    Forall2 (fun item ap =>
               query_average_precision relevance_judgments item = Ok ap)
            (List.filter (judged relevance_judgments) all_results) aps
    /\ mean_average_precision all_results relevance_judgments = Ok m
    /\ (aps = [] -> m = 0%Q)
    /\ (aps <> [] ->
        m = (Qsum aps / inject_Z (Z.of_nat (length aps)))%Q).
Proof.
  destruct (map_loop_spec all_results relevance_judgments [])
    as (aps & HF & Hloop).
  simpl in Hloop. unfold mean_average_precision.
  destruct all_results as [|item rest].
  { inversion HF; subst. exists [], 0%Q.
    split; [constructor|]. split; [reflexivity|]. split; [reflexivity|].
    intros H. now contradiction H. }
  simpl is_empty. cbv iota. rewrite Hloop. simpl.
  destruct aps as [|ap aps'].
  - exists [], 0%Q.
    split; [exact HF|]. split; [reflexivity|]. split; [reflexivity|].
    intros H. now contradiction H.
  - exists (ap :: aps'), (np_mean (ap :: aps')).
    split; [exact HF|]. split; [reflexivity|]. split; [discriminate|].
    intros _. reflexivity.
Qed.

(** C5 on two queries with the same results, the second of which has an
    empty judgment set. *)
Lemma mean_average_precision_spec_witness :
  exists m : Q,
    mean_average_precision
      [("q1", example_results); ("q2", example_results)]
      (<["q1" := example_relevant_docs]> (<["q2" := ∅]> ∅))
    = Ok m.
Proof.
  destruct (mean_average_precision_spec
              [("q1", example_results); ("q2", example_results)]
              (<["q1" := example_relevant_docs]> (<["q2" := ∅]> ∅)))
    as (aps & m & _ & Hm & _).
  exists m. exact Hm.
Defined.

(** The mean over those two queries is the average precision of the first
    one, 5/9, not half of it. *)
Example mean_average_precision_skips_unjudged :
  exists m : Q,
    mean_average_precision
      [("q1", example_results); ("q2", example_results)]
      (<["q1" := example_relevant_docs]> (<["q2" := ∅]> ∅))
    = Ok m
    /\ (m == 5 # 9)%Q.
Proof. eexists. split; [vm_compute; reflexivity|reflexivity]. Qed.

(** ** The join and the bundle of [evaluate_query] *)

Lemma mark_rank (rel : gset string) (l : list SearchResult) :
  map rank (mark rel l) = map rank l.
Proof. unfold mark. rewrite map_map. reflexivity. Qed.

Lemma mark_doc_id (rel : gset string) (l : list SearchResult) :
  map doc_id (mark rel l) = map doc_id l.
Proof. unfold mark. rewrite map_map. reflexivity. Qed.

Lemma mark_score (rel : gset string) (l : list SearchResult) :
  map score (mark rel l) = map score l.
Proof. unfold mark. rewrite map_map. reflexivity. Qed.

Lemma mark_relevant (rel : gset string) (l : list SearchResult) :
  map relevant (mark rel l)
  = map (fun r => bool_decide (doc_id r ∈ rel)) l.
Proof. unfold mark. rewrite map_map. reflexivity. Qed.

Lemma hits_mark_remove (rel : gset string) (d : string)
    (l : list SearchResult) :
  d ∉ map doc_id l -> hits (mark (rel ∖ {[d]}) l) = hits (mark rel l).
Proof.
  unfold hits. induction l as [|r rest IH]; intros Hd; simpl; [reflexivity|].
  simpl in Hd. apply not_elem_of_cons in Hd as [Hne Hrest].
  rewrite (bool_decide_ext (doc_id r ∈ rel ∖ {[d]}) (doc_id r ∈ rel)).
  2:{ rewrite elem_of_difference, elem_of_singleton.
      split; [tauto|]. intros Hin. split; [exact Hin|congruence]. }
  destruct (bool_decide (doc_id r ∈ rel)); simpl; rewrite IH; auto.
Qed.

(** With pairwise distinct identifiers the join flags at most as many
    results as the judgment set has members. *)
Lemma hits_mark_le (rel : gset string) (l : list SearchResult) :
  NoDup (map doc_id l) -> (hits (mark rel l) <= size rel)%nat.
Proof.
  revert rel. induction l as [|r rest IH]; intros rel Hnd.
  - unfold hits. simpl. lia.
  - simpl in Hnd. apply NoDup_cons in Hnd as [Hfresh Hnd].
    unfold hits. simpl.
    destruct (decide (doc_id r ∈ rel)) as [Hin|Hout].
    + rewrite bool_decide_eq_true_2 by assumption. simpl.
      fold (hits (mark rel rest)).
      rewrite <- (hits_mark_remove rel (doc_id r)) by assumption.
      specialize (IH (rel ∖ {[doc_id r]}) Hnd).
      assert (Hsz : size (rel ∖ {[doc_id r]}) = (size rel - 1)%nat).
      { rewrite size_difference by set_solver. now rewrite size_singleton. }
      assert (Hpos : (0 < size rel)%nat).
      { destruct (size rel) eqn:E; [|lia].
        apply size_empty_inv in E. set_solver. }
      lia.
    + rewrite bool_decide_eq_false_2 by assumption. simpl.
      apply IH, Hnd.
Qed.

Lemma hits_firstn_le_all (n : nat) (l : list SearchResult) :
  (hits (firstn n l) <= hits l)%nat.
Proof.
  rewrite <- (firstn_all l) at 2.
  destruct (Nat.le_gt_cases n (length l)) as [Hle|Hgt].
  - now apply hits_firstn_mono.
  - rewrite firstn_all2 by lia. now rewrite firstn_all.
Qed.

Lemma recall_at_k_bounds (results : list SearchResult) (k t : Z) :
  (0 <= k)%Z -> (0 <= t)%Z ->
  exists q : Q,
    recall_at_k results k t = Ok q
    /\ ((Z.of_nat (hits (firstn (Z.to_nat k) results)) <= t)%Z -> unit_Q q).
Proof.
  intros Hk Ht. destruct (Z.eq_dec t 0%Z) as [->|Ht0].
  { exists 0%Q. split.
    - unfold recall_at_k. now rewrite orb_true_r.
    - intros _. split; q_closed. }
  destruct (recall_at_k_value results k t) as (q & Hq & Hval);
    [assumption..|].
  exists q. split; [exact Hq|]. intros Hh.
  assert (Htq : (0 < inject_Z t)%Q) by (apply inject_Z_pos; lia).
  split; rewrite Hval.
  - apply Qle_shift_div_l; [assumption|]. rewrite Qmult_0_l.
    change 0%Q with (inject_Z 0). rewrite <- Zle_Qle. lia.
  - apply Qle_shift_div_r; [assumption|]. rewrite Qmult_1_l.
    now rewrite <- Zle_Qle.
Qed.

Lemma mrr_loop_nonzero_ranks (l : list SearchResult) :
  Forall (fun r => rank r <> 0%Z /\ (Z.abs (rank r) < float_overflow)%Z) l ->
  exists q : Q, mrr_loop l = Ok q.
Proof.
  induction 1 as [|r rest [Hr Hlt] _ IH]; simpl.
  - now exists 0%Q.
  - destruct (relevant r); [|exact IH].
    rewrite float_div_int_ok by assumption. eauto.
Qed.

Lemma mrr_loop_positive_ranks (l : list SearchResult) :
  Forall (fun r => (1 <= rank r < float_overflow)%Z) l ->
  exists q : Q, mrr_loop l = Ok q /\ unit_Q q.
Proof.
  induction 1 as [|r rest Hr _ IH]; simpl.
  - exists 0%Q. split; [reflexivity|split; q_closed].
  - destruct (relevant r); [|exact IH].
    rewrite float_div_int_ok by lia.
    eexists. split; [reflexivity|].
    assert (Hrq : (0 < inject_Z (rank r))%Q) by (apply inject_Z_pos; lia).
    split.
    + apply Qle_shift_div_l; [assumption|]. rewrite Qmult_0_l. q_closed.
    + apply Qle_shift_div_r; [assumption|]. rewrite Qmult_1_l.
      change 1%Q with (inject_Z 1). now rewrite <- Zle_Qle.
Qed.

Lemma mean_reciprocal_rank_loop (l : list SearchResult) :
  mean_reciprocal_rank l = mrr_loop l.
Proof. now destruct l. Qed.

(** [evaluate_query] raises only where [mean_reciprocal_rank] does: the
    other six metrics are always defined on the joined list. *)
Lemma evaluate_query_fields (results : list SearchResult)
    (rel : gset string) (m : Q) :
  mean_reciprocal_rank (mark rel results) = Ok m ->
  exists p1 p5 p10 r10 ap : Q,
    precision_at_k (mark rel results) 1 = Ok p1
    /\ precision_at_k (mark rel results) 5 = Ok p5
    /\ precision_at_k (mark rel results) 10 = Ok p10
    /\ recall_at_k (mark rel results) 10 (set_len rel) = Ok r10
    /\ average_precision (mark rel results) (set_len rel) = Ok ap
    /\ evaluate_query results rel
       = Ok (mkEvaluationResult
               (match results with r :: _ => doc_id r | [] => "unknown" end)
               p1 p5 p10 r10 m
               (normalized_dcg (mark rel results) 10 (set_len rel)) ap).
Proof.
  intros Hm.
  destruct (precision_at_k_unit (mark rel results) 1) as (p1 & H1 & _);
    [lia|].
  destruct (precision_at_k_unit (mark rel results) 5) as (p5 & H5 & _);
    [lia|].
  destruct (precision_at_k_unit (mark rel results) 10) as (p10 & H10 & _);
    [lia|].
  destruct (recall_at_k_bounds (mark rel results) 10 (set_len rel))
    as (r10 & Hr & _); [unfold set_len; lia..|].
  destruct (average_precision_bounds (mark rel results) (set_len rel))
    as (ap & Hap & _).
  exists p1, p5, p10, r10, ap. repeat (split; [assumption|]).
  unfold evaluate_query. rewrite H1, H5, H10, Hr, Hm, Hap. reflexivity.
Qed.

(** Ranks that count from 1 lie between 1 and the length of the list. *)
Lemma ranks_from_one_positive (l : list SearchResult) :
  ranks_from_one l = true -> Forall (fun r => (1 <= rank r <= len l)%Z) l.
Proof.
  unfold ranks_from_one, len. intros H. apply bool_decide_eq_true_1 in H.
  assert (HF : Forall (fun z => (1 <= z <= Z.of_nat (length l))%Z)
                 (map rank l)).
  { rewrite H. apply Forall_forall. intros z Hz.
    apply list_elem_of_fmap in Hz as (n & -> & Hn).
    apply elem_of_seq in Hn. lia. }
  clear H. generalize dependent (Z.of_nat (length l)). intros b HF.
  induction l as [|r rest IH]; [constructor|].
  simpl in HF. inversion HF; subst. constructor; auto.
Qed.

Lemma Forall_rank_mark (P : Z -> Prop) (rel : gset string)
    (l : list SearchResult) :
  Forall (fun r => P (rank r)) l ->
  Forall (fun r => P (rank r)) (mark rel l).
Proof.
  induction 1 as [|r rest Hr _ IH]; simpl; constructor; auto.
Qed.

Lemma Ok_inj {A : Type} (a b : A) : Ok a = Ok b -> a = b.
Proof. now intros [= ->]. Qed.

(** C2. On a ranking with ranks [1..n] and pairwise distinct identifiers,
    and for every judgment set, [evaluate_query] returns a bundle and each of
    its seven metrics lies between 0 and 1.  The length [n] is a length a
    Python list can have: it is at most [sys.maxsize], below [2**63], and the
    statement asks only that it be below the float range
    ([float_overflow_large]), so that every rank [1..n] has a float. *)
Theorem evaluate_query_unit_interval (results : list SearchResult)
    (relevant_docs : gset string) :
  (len results < float_overflow)%Z ->
  well_formed_ranking results = true ->
  exists b : EvaluationResult,
    evaluate_query results relevant_docs = Ok b /\ unit_bundle b.
Proof.
  intros Hlen Hwf. unfold well_formed_ranking in Hwf.
  apply andb_prop in Hwf as [Hranks Hids].
  apply bool_decide_eq_true_1 in Hids.
  set (marked := mark relevant_docs results).
  pose proof (hits_mark_le relevant_docs results Hids) as Hhits.
  fold marked in Hhits.
  assert (Htop : forall n,
             (Z.of_nat (hits (firstn n marked)) <= set_len relevant_docs)%Z).
  { intros n. pose proof (hits_firstn_le_all n marked). unfold set_len. lia. }
  destruct (mrr_loop_positive_ranks marked) as (m & Hm & Um).
  { apply (Forall_rank_mark (fun z => (1 <= z < float_overflow)%Z)).
    eapply Forall_impl; [apply ranks_from_one_positive, Hranks|].
    simpl. intros r Hr. lia. }
  rewrite <- mean_reciprocal_rank_loop in Hm.
  destruct (evaluate_query_fields results relevant_docs m Hm)
    as (p1 & p5 & p10 & r10 & ap & H1 & H5 & H10 & Hr & Hap & Heq).
  fold marked in H1, H5, H10, Hr, Hap, Heq.
  eexists. split; [exact Heq|].
  unfold unit_bundle, unit_Q. simpl.
  destruct (precision_at_k_unit marked 1) as (q & Hq & Hu); [lia|].
  rewrite H1 in Hq. apply Ok_inj in Hq as <-.
  split; [exact Hu|]. clear Hu.
  destruct (precision_at_k_unit marked 5) as (q & Hq & Hu); [lia|].
  rewrite H5 in Hq. apply Ok_inj in Hq as <-.
  split; [exact Hu|]. clear Hu.
  destruct (precision_at_k_unit marked 10) as (q & Hq & Hu); [lia|].
  rewrite H10 in Hq. apply Ok_inj in Hq as <-.
  split; [exact Hu|]. clear Hu.
  destruct (recall_at_k_bounds marked 10 (set_len relevant_docs))
    as (q & Hq & Hu); [unfold set_len; lia..|].
  rewrite Hr in Hq. apply Ok_inj in Hq as <-.
  split; [apply Hu, Htop|].
  split; [exact Um|].
  split.
  { apply normalized_dcg_bounds; [lia|unfold set_len; lia|].
    rewrite slice_to_nonneg by lia. apply Htop. }
  destruct (average_precision_bounds marked (set_len relevant_docs))
    as (q & Hq & Hlo & Hhi & _).
  rewrite Hap in Hq. apply Ok_inj in Hq as <-.
  split; [apply Hlo|apply Hhi]; unfold set_len; lia.
Qed.

(** C2 on the example of [metrics.py]. *)
Lemma evaluate_query_unit_interval_witness :
  exists b : EvaluationResult,
    evaluate_query example_results example_relevant_docs = Ok b
    /\ unit_bundle b.
Proof.
  apply (evaluate_query_unit_interval example_results example_relevant_docs);
    vm_compute; reflexivity.
Defined.

(** The values the design document lists for that example. *)
Example example_metrics :
  precision_at_k (mark example_relevant_docs example_results) 1 = Ok 1%Q
  /\ precision_at_k (mark example_relevant_docs example_results) 5
     = Ok (2 / 5)%Q
  /\ recall_at_k (mark example_relevant_docs example_results) 10
       (set_len example_relevant_docs) = Ok (2 / 3)%Q
  /\ mean_reciprocal_rank (mark example_relevant_docs example_results)
     = Ok 1%Q
  /\ exists ap : Q,
       average_precision (mark example_relevant_docs example_results)
         (set_len example_relevant_docs) = Ok ap
       /\ (ap == 5 # 9)%Q.
Proof.
  repeat split; try (vm_compute; reflexivity).
  eexists. split; [vm_compute; reflexivity|]. reflexivity.
Qed.

(** ** No validation of the ranking *)

Lemma malformed_results_mrr :
  mean_reciprocal_rank (mark {[ "a" ]} malformed_results) = Ok (1 / 5)%Q.
Proof. vm_compute. reflexivity. Qed.

(** C1 as stated fails.  [malformed_results] repeats an identifier and
    carries the ranks 5, 5, yet the join and the evaluation go through and
    [evaluate_query] returns a bundle, whose reciprocal rank is the
    caller-supplied 1/5. *)
Lemma malformed_ranking_is_accepted :
  well_formed_ranking malformed_results = false
  /\ exists b : EvaluationResult,
       evaluate_query malformed_results {[ "a" ]} = Ok b
       /\ mrr b = (1 / 5)%Q.
Proof.
  split; [vm_compute; reflexivity|].
  destruct (evaluate_query_fields malformed_results {[ "a" ]} _
              malformed_results_mrr)
    as (p1 & p5 & p10 & r10 & ap & _ & _ & _ & _ & _ & Heq).
  eexists. split; [exact Heq|reflexivity].
Qed.

(** C1, amended.  Nothing validates a ranking.  A [SearchResult] holds the
    identifier, score and rank it was created with; the join of
    [evaluate_query] keeps them and only sets the relevance flag; and
    [evaluate_query] returns a bundle for every result list in which every
    stored rank is a divisor of [1.0], that is, not 0 and smaller in
    magnitude than [2**1024 - 2**970], whether or not the ranks are
    contiguous from 1 and the identifiers distinct. *)
Theorem evaluate_query_accepts_any_ranking (results : list SearchResult)
    (relevant_docs : gset string) :
  Forall (fun r => rank r <> 0%Z /\ (Z.abs (rank r) < float_overflow)%Z)
    results ->
  (forall (d : string) (s : Q) (r : Z) (rel : bool),
      doc_id (mkSearchResult d s r rel) = d
      /\ score (mkSearchResult d s r rel) = s
      /\ rank (mkSearchResult d s r rel) = r)
  /\ map doc_id (mark relevant_docs results) = map doc_id results
  /\ map score (mark relevant_docs results) = map score results
  /\ map rank (mark relevant_docs results) = map rank results
  /\ exists b : EvaluationResult,
       evaluate_query results relevant_docs = Ok b.
Proof.
  intros Hranks.
  split; [intros; repeat split|].
  split; [apply mark_doc_id|].
  split; [apply mark_score|].
  split; [apply mark_rank|].
  destruct (mrr_loop_nonzero_ranks (mark relevant_docs results))
    as (m & Hm).
  { now apply (Forall_rank_mark
                 (fun z => z <> 0%Z /\ (Z.abs z < float_overflow)%Z)). }
  rewrite <- mean_reciprocal_rank_loop in Hm.
  destruct (evaluate_query_fields results relevant_docs m Hm)
    as (p1 & p5 & p10 & r10 & ap & _ & _ & _ & _ & _ & Heq).
  eexists. exact Heq.
Qed.

(** The two ways [evaluate_query] does fail: the first relevant result is
    stored with rank 0 and the reciprocal rank divides by it, or with a rank
    that has no float. *)
Example rank_zero_raises :
  evaluate_query [mkSearchResult "a" 1 0 false] {[ "a" ]}
  = Raise ZeroDivisionError.
Proof. vm_compute. reflexivity. Qed.

Example rank_overflow_raises :
  evaluate_query [mkSearchResult "a" 1 (2 ^ 1024) false] {[ "a" ]}
  = Raise OverflowError.
Proof. vm_compute. reflexivity. Qed.

(** The amended C1 on the malformed ranking itself. *)
Lemma evaluate_query_accepts_any_ranking_witness :
  exists b : EvaluationResult,
    evaluate_query malformed_results {[ "a" ]} = Ok b.
Proof.
  apply (evaluate_query_accepts_any_ranking malformed_results {[ "a" ]}).
  repeat constructor; simpl; try lia; reflexivity.
Defined.

(** ** Fusion gain *)

Lemma py_max_Qmax (a b : Q) : (py_max a b == Qmax a b)%Q.
Proof.
  unfold py_max. destruct (Qle_bool b a) eqn:E.
  - apply Qle_bool_iff in E. symmetry. now apply Q.max_l.
  - assert (Hab : (a <= b)%Q).
    { destruct (Qlt_le_dec a b) as [Hlt|Hle]; [now apply Qlt_le_weak|].
      apply Qle_bool_iff in Hle. congruence. }
    symmetry. now apply Q.max_r.
Qed.

Lemma best_single_Qmax (s l a : Q) :
  (py_max (py_max s l) a == Qmax s (Qmax l a))%Q.
Proof.
  rewrite py_max_Qmax. rewrite (Q.max_assoc s l a).
  apply Q.max_compat; [apply py_max_Qmax|reflexivity].
Qed.

(** C9. [hybrid_fusion_gain] never raises: it returns
    [(hybrid - best) / best] for [best = max(semantic, lexical, ast)] when
    [best] is not 0, and 0 when [best] is 0, the all-zero call included. *)
Theorem hybrid_fusion_gain_spec (hybrid semantic lexical ast : Q) :
  (~ (Qmax semantic (Qmax lexical ast) == 0)%Q ->
   exists g : Q,
     hybrid_fusion_gain hybrid semantic lexical ast = Ok g
     /\ (g == (hybrid - Qmax semantic (Qmax lexical ast))
              / Qmax semantic (Qmax lexical ast))%Q)
  /\ ((Qmax semantic (Qmax lexical ast) == 0)%Q ->
      hybrid_fusion_gain hybrid semantic lexical ast = Ok 0%Q)
  /\ hybrid_fusion_gain 0 0 0 0 = Ok 0%Q.
Proof.
  pose proof (best_single_Qmax semantic lexical ast) as Hbest.
  unfold hybrid_fusion_gain. cbv zeta.
  split; [|split].
  - intros Hne.
    destruct (Qeq_bool _ 0) eqn:E.
    { apply Qeq_bool_eq in E. rewrite Hbest in E. contradiction. }
    rewrite truediv_ok by (rewrite Hbest; exact Hne).
    eexists. split; [reflexivity|]. now rewrite Hbest.
  - intros Hz. rewrite <- Hbest in Hz.
    now rewrite (Qeq_eq_bool _ _ Hz).
  - reflexivity.
Qed.

(** C9 on a fused score of 3/4 over the single-method scores 1/2, 3/5 and
    0: the gain is 1/4. *)
Lemma hybrid_fusion_gain_spec_witness :
  exists g : Q,
    hybrid_fusion_gain (3 # 4) (1 # 2) (3 # 5) 0 = Ok g /\ (g == 1 # 4)%Q.
Proof.
  destruct (proj1 (hybrid_fusion_gain_spec (3 # 4) (1 # 2) (3 # 5) 0))
    as (g & Hg & Hval).
  - vm_compute. discriminate.
  - exists g. split; [exact Hg|]. rewrite Hval. vm_compute. reflexivity.
Defined.

(** ** Per-task comparison *)

Lemma percentage_ok (num den : Q) :
  ~ (den == 0)%Q -> percentage num den = Ok (num / den * 100)%Q.
Proof. intros H. unfold percentage. now rewrite truediv_ok. Qed.

Lemma Qpos_bool_true (x : Q) : Qpos_bool x = true <-> (0 < x)%Q.
Proof.
  unfold Qpos_bool. rewrite negb_true_iff. split.
  - intros H. apply Qnot_le_lt. intros Hle.
    apply Qle_bool_iff in Hle. congruence.
  - intros H. destruct (Qle_bool x 0) eqn:E; [|reflexivity].
    apply Qle_bool_iff in E. exfalso. eapply Qlt_not_le; eassumption.
Qed.

Lemma Qpos_bool_zero (x : Q) : (x == 0)%Q -> Qpos_bool x = false.
Proof.
  intros H. destruct (Qpos_bool x) eqn:E; [|reflexivity].
  apply Qpos_bool_true in E. rewrite H in E. discriminate E.
Qed.

Lemma guarded_percentage_int (a b : Z) :
  (if (0 <? a)%Z then percentage (inject_Z (a - b)) (inject_Z a)
   else Ok 0%Q)
  = Ok (if (0 <? a)%Z then inject_Z (a - b) / inject_Z a * 100 else 0)%Q.
Proof.
  destruct (Z.ltb_spec 0 a) as [Ha|Ha]; [|reflexivity].
  apply percentage_ok, inject_Z_nonzero. lia.
Qed.

Lemma guarded_percentage_float (a b : Q) :
  (if Qpos_bool a then percentage (a - b) a else Ok 0%Q)
  = Ok (if Qpos_bool a then (a - b) / a * 100 else 0)%Q.
Proof.
  destruct (Qpos_bool a) eqn:E; [|reflexivity].
  apply Qpos_bool_true in E. apply percentage_ok.
  intros H. rewrite H in E. discriminate E.
Qed.

Section RunnerProperties.

Variable baseline_execute_task : task_dict -> result AgentRun.
Variable cs_execute_task : task_dict -> result AgentRun.

(** When both collaborators return, so does [run_single_task], with the
    comparison record assembled from the two runs. *)
Lemma run_single_task_ok (self : TestRunner) (task : task_dict)
    (tid : string) (A B : AgentRun) :
  task !! "id" = Some tid ->
  (verbose self = true -> is_Some (task !! "task")) ->
  baseline_execute_task task = Ok A ->
  cs_execute_task task = Ok B ->
  run_single_task baseline_execute_task cs_execute_task self task
  = Ok (mkComparisonMetrics tid
          (dict_get task "category" "unknown")
          (dict_get task "difficulty" "medium")
          (total_calls A) (total_output_tokens A) (total_duration A)
          (precision A) (recall A) (success A)
          (total_calls B) (total_output_tokens B) (total_duration B)
          (precision B) (recall B) (success B)
          (if (0 <? total_calls A)%Z
           then inject_Z (total_calls A - total_calls B)
                / inject_Z (total_calls A) * 100 else 0)%Q
          (if (0 <? total_output_tokens A)%Z
           then inject_Z (total_output_tokens A - total_output_tokens B)
                / inject_Z (total_output_tokens A) * 100 else 0)%Q
          (if Qpos_bool (total_duration A)
           then (total_duration A - total_duration B)
                / total_duration A * 100 else 0)%Q
          (precision B - precision A)%Q (recall B - recall A)%Q).
Proof.
  intros Hid Hdesc HA HB.
  unfold run_single_task, dict_getitem. rewrite Hid. simpl.
  assert (Hv : exists v,
             (if verbose self
              then match task !! "task" with
                   | Some v => Ok v
                   | None => Raise (KeyError "task")
                   end
              else Ok "") = Ok v).
  { destruct (verbose self); [|eauto].
    destruct (Hdesc eq_refl) as [v ->]. eauto. }
  destruct Hv as [v ->]. simpl. rewrite HA. simpl. rewrite HB. simpl.
  rewrite !guarded_percentage_int, guarded_percentage_float. reflexivity.
Qed.

(** C10. When both strategies return their run for a task, the comparison
    record is produced and its three reduction percentages are
    [(A - B) / A * 100] over the call counts, the token counts and the
    durations of the baseline run [A] and the hybrid run [B] when the
    baseline quantity is positive, and 0 when it is 0. *)
Theorem run_single_task_reductions (self : TestRunner) (task : task_dict)
    (tid : string) (A B : AgentRun) :
  task !! "id" = Some tid ->
  (verbose self = true -> is_Some (task !! "task")) ->
  baseline_execute_task task = Ok A ->
  cs_execute_task task = Ok B ->
  exists m : ComparisonMetrics,
    run_single_task baseline_execute_task cs_execute_task self task = Ok m
    /\ ((0 < total_calls A)%Z ->
        call_reduction_pct m
        = (inject_Z (total_calls A - total_calls B)
           / inject_Z (total_calls A) * 100)%Q)
    /\ (total_calls A = 0%Z -> call_reduction_pct m = 0%Q)
    /\ ((0 < total_output_tokens A)%Z ->
        token_reduction_pct m
        = (inject_Z (total_output_tokens A - total_output_tokens B)
           / inject_Z (total_output_tokens A) * 100)%Q)
    /\ (total_output_tokens A = 0%Z -> token_reduction_pct m = 0%Q)
    /\ ((0 < total_duration A)%Q ->
        time_reduction_pct m
        = ((total_duration A - total_duration B)
           / total_duration A * 100)%Q)
    /\ ((total_duration A == 0)%Q -> time_reduction_pct m = 0%Q).
Proof.
  intros Hid Hdesc HA HB.
  eexists. split; [now apply (run_single_task_ok self task tid A B)|].
  simpl. repeat split.
  - intros H. apply Z.ltb_lt in H. now rewrite H.
  - intros ->. reflexivity.
  - intros H. apply Z.ltb_lt in H. now rewrite H.
  - intros ->. reflexivity.
  - intros H. apply Qpos_bool_true in H. now rewrite H.
  - intros H. now rewrite (Qpos_bool_zero _ H).
Qed.

End RunnerProperties.

(** C10 on a baseline run of 10 calls, 1000 tokens and 2 seconds against a
    hybrid run of 4 calls, 200 tokens and 1 second: the reductions are 60,
    80 and 50 percent. *)
Lemma run_single_task_reductions_witness :
  exists m : ComparisonMetrics,
    run_single_task example_baseline example_cs example_runner
      (example_task "t1") = Ok m
    /\ (call_reduction_pct m == 60)%Q
    /\ (token_reduction_pct m == 80)%Q
    /\ (time_reduction_pct m == 50)%Q.
Proof.
  destruct (run_single_task_reductions example_baseline example_cs
              example_runner (example_task "t1") "t1"
              (mkAgentRun 10 2 1000 (1 # 2) (1 # 2) false)
              (mkAgentRun 4 1 200 (3 # 4) 1 true))
    as (m & Hm & Hc & _ & Ht & _ & Hd & _).
  - reflexivity.
  - intros _. eexists. reflexivity.
  - reflexivity.
  - reflexivity.
  - exists m. split; [exact Hm|].
    rewrite Hc, Ht, Hd; simpl; try lia; q_closed.
Defined.

(** ** Summary statistics *)

Lemma statistics_mean_ok (data : list Q) :
  data <> [] ->
  statistics_mean data = Ok (Qsum data / inject_Z (len data))%Q.
Proof. destruct data; [contradiction|reflexivity]. Qed.

Lemma insert_sorted_length (x : Q) (l : list Q) :
  length (insert_sorted x l) = S (length l).
Proof.
  induction l as [|y t IH]; simpl; [reflexivity|].
  destruct (Qle_bool x y); simpl; [reflexivity|now rewrite IH].
Qed.

Lemma sorted_length (data : list Q) : length (sorted data) = length data.
Proof.
  induction data as [|x t IH]; simpl; [reflexivity|].
  now rewrite insert_sorted_length, IH.
Qed.

Lemma statistics_median_ok (data : list Q) :
  data <> [] -> exists q : Q, statistics_median data = Ok q.
Proof.
  intros Hne. unfold statistics_median. cbv zeta. rewrite sorted_length.
  destruct data as [|x t]; [contradiction|]. simpl Nat.eqb. cbv iota.
  destruct (Nat.odd (length (x :: t))); eauto.
Qed.

Lemma map_nonempty {A B : Type} (f : A -> B) (l : list A) :
  l <> [] -> map f l <> [].
Proof. destruct l; [contradiction|discriminate]. Qed.

Lemma len_map {A B : Type} (f : A -> B) (l : list A) :
  len (map f l) = len l.
Proof. unfold len. now rewrite length_map. Qed.

Lemma len_nonzero {A : Type} (l : list A) :
  l <> [] -> ~ (inject_Z (len l) == 0)%Q.
Proof.
  intros Hne. apply inject_Z_nonzero. unfold len.
  destruct l; [contradiction|simpl; lia].
Qed.

Lemma summarize_category_ok (cat : string)
    (metrics : list ComparisonMetrics) :
  metrics <> [] ->
  exists c : CategorySummary,
    summarize_category (cat, metrics) = Ok (cat, c)
    /\ count c = len metrics.
Proof.
  intros Hne. unfold summarize_category.
  rewrite !statistics_mean_ok by now apply map_nonempty. simpl.
  rewrite truediv_ok by now apply len_nonzero. simpl.
  eexists. split; reflexivity.
Qed.

Lemma summarize_categories_ok
    (categories : list (string * list ComparisonMetrics)) :
  Forall (fun entry => entry.2 <> []) categories ->
  exists sums : list (string * CategorySummary),
    mapM summarize_category categories = Ok sums
    /\ map (fun e => count e.2) sums = map (fun e => len e.2) categories
    /\ map fst sums = map fst categories.
Proof.
  induction 1 as [|[cat ms] rest Hne _ (sums & Hs & Hc & Hk)].
  - exists []. repeat split.
  - destruct (summarize_category_ok cat ms Hne) as (c & Hsum & Hcount).
    exists ((cat, c) :: sums). split; [|split].
    + change (mapM summarize_category ((cat, ms) :: rest))
        with (y ← summarize_category (cat, ms);
              k ← mapM summarize_category rest; mret (y :: k)).
      rewrite Hsum. simpl. rewrite Hs. reflexivity.
    + simpl. now rewrite Hcount, Hc.
    + simpl. now rewrite Hk.
Qed.

Lemma categories_append_nonempty (cat : string) (m : ComparisonMetrics)
    (categories : list (string * list ComparisonMetrics)) :
  Forall (fun entry => entry.2 <> []) categories ->
  Forall (fun entry => entry.2 <> []) (categories_append cat m categories).
Proof.
  induction 1 as [|[c ms] rest Hne Hrest IH]; simpl.
  - repeat constructor. discriminate.
  - destruct (String.eqb c cat); constructor; simpl; auto.
    destruct ms; discriminate.
Qed.

Lemma categories_append_total (cat : string) (m : ComparisonMetrics)
    (categories : list (string * list ComparisonMetrics)) :
  Zsum (map (fun e => len e.2) (categories_append cat m categories))
  = (Zsum (map (fun e => len e.2) categories) + 1)%Z.
Proof.
  induction categories as [|[c ms] rest IH]; simpl.
  - reflexivity.
  - destruct (String.eqb c cat); simpl.
    + unfold len. rewrite length_app. simpl. lia.
    + rewrite IH. lia.
Qed.

Lemma group_by_category_invariant (l : list ComparisonMetrics)
    (categories : list (string * list ComparisonMetrics)) :
  Forall (fun entry => entry.2 <> []) categories ->
  let grouped :=
    foldl (fun cats metric =>
             categories_append (task_category metric) metric cats)
          categories l in
  Forall (fun entry => entry.2 <> []) grouped
  /\ Zsum (map (fun e => len e.2) grouped)
     = (Zsum (map (fun e => len e.2) categories) + len l)%Z.
Proof.
  revert categories. induction l as [|m rest IH]; intros categories Hne.
  - simpl. split; [assumption|]. unfold len. simpl. lia.
  - simpl.
    destruct (IH (categories_append (task_category m) m categories))
      as [HF Hsum]; [now apply categories_append_nonempty|].
    split; [exact HF|]. rewrite Hsum, categories_append_total.
    unfold len. simpl length. lia.
Qed.

(** On a non-empty record collection the report is the five-key summary:
    it is computed without raising, its task count is the number of
    records, and its aggregates range over exactly these records. *)
Lemma generate_summary_report_ok (self : TestRunner) :
  results self <> [] ->
  exists s : Summary,
    generate_summary_report self = Ok (Report s)
    /\ total_tasks s = len (results self)
    /\ avg_call_reduction_pct (overall_improvements s)
       = (Qsum (map call_reduction_pct (results self))
          / inject_Z (len (results self)))%Q
    /\ rate_cs_hybrid (success_rates s)
       = (inject_Z (Z.of_nat (length (List.filter cs_success (results self))))
          / inject_Z (len (results self)))%Q
    /\ Zsum (map (fun e => count e.2) (by_category s)) = len (results self).
Proof.
  intros Hne. unfold generate_summary_report.
  destruct (results self) as [|m0 rest] eqn:Eres; [contradiction|].
  simpl is_empty. cbv iota zeta. rewrite <- Eres in *.
  rewrite !statistics_mean_ok by now apply map_nonempty.
  rewrite !len_map. simpl.
  destruct (group_by_category_invariant (results self) [])
    as [Hgroups Htotal]; [constructor|].
  destruct (summarize_categories_ok _ Hgroups) as (sums & Hs & Hc & _).
  rewrite Hs. simpl.
  destruct (statistics_median_ok (map call_reduction_pct (results self)))
    as (mc & ->); [now apply map_nonempty|]. simpl.
  destruct (statistics_median_ok (map token_reduction_pct (results self)))
    as (mt & ->); [now apply map_nonempty|]. simpl.
  rewrite !truediv_ok by now apply len_nonzero. simpl.
  eexists. split; [reflexivity|]. simpl.
  split; [reflexivity|]. split; [reflexivity|].
  split.
  - now rewrite sum_ones_hits, Z.add_0_l.
  - rewrite Hc, Htotal. simpl. lia.
Qed.

Lemma generate_summary_report_empty (self : TestRunner) :
  results self = [] -> generate_summary_report self = Ok EmptyReport.
Proof. intros E. unfold generate_summary_report. now rewrite E. Qed.

Section BatchProperties.

Variable baseline_execute_task : task_dict -> result AgentRun.
Variable cs_execute_task : task_dict -> result AgentRun.

Lemma evaluates_to_has_id (self : TestRunner) (task : task_dict)
    (m : ComparisonMetrics) :
  evaluates_to baseline_execute_task cs_execute_task self task m ->
  exists tid, dict_getitem task "id" = Ok tid.
Proof.
  unfold evaluates_to, run_single_task.
  destruct (dict_getitem task "id") as [tid|e]; [eauto|discriminate].
Qed.

Lemma run_loop_all_succeed (self : TestRunner) (tasks : list task_dict)
    (ms acc : list ComparisonMetrics) :
  Forall2 (evaluates_to baseline_execute_task cs_execute_task self)
          tasks ms ->
  run_loop baseline_execute_task cs_execute_task self tasks acc
  = Ok (acc ++ ms).
Proof.
  intros H. revert acc.
  induction H as [|task m tasks ms Hm _ IH]; intros acc; simpl.
  - now rewrite app_nil_r.
  - destruct (evaluates_to_has_id _ _ _ Hm) as (tid & ->). simpl.
    unfold evaluates_to in Hm. rewrite Hm, IH.
    now rewrite <- app_assoc.
Qed.

(** The loop drops a task whose evaluation raises and keeps the records
    of the tasks around it, in order. *)
Lemma run_loop_one_failure (self : TestRunner)
    (pre post : list task_dict) (failing : task_dict) (e : exn)
    (ms_pre ms_post : list ComparisonMetrics) :
  Forall2 (evaluates_to baseline_execute_task cs_execute_task self)
          pre ms_pre ->
  Forall2 (evaluates_to baseline_execute_task cs_execute_task self)
          post ms_post ->
  is_Some (failing !! "id") ->
  run_single_task baseline_execute_task cs_execute_task self failing
  = Raise e ->
  run_loop baseline_execute_task cs_execute_task self
    (pre ++ failing :: post) []
  = Ok (ms_pre ++ ms_post).
Proof.
  intros Hpre Hpost [tid Hid] Hfail.
  assert (G : forall acc,
             run_loop baseline_execute_task cs_execute_task self
               (pre ++ failing :: post) acc
             = Ok (acc ++ ms_pre ++ ms_post)); [|apply (G [])].
  induction Hpre as [|task m tasks ms Hm _ IH]; intros acc; simpl.
  - unfold dict_getitem. rewrite Hid. simpl. rewrite Hfail.
    now apply run_loop_all_succeed.
  - destruct (evaluates_to_has_id _ _ _ Hm) as (t' & ->). simpl.
    unfold evaluates_to in Hm. rewrite Hm, IH.
    now rewrite <- app_assoc.
Qed.

End BatchProperties.

(** ** The batch *)

(** C4, amended.  In a batch of [N >= 2] tasks that carry an [id], in which
    the evaluation of exactly one task raises and the other [N - 1] return,
    [run_all_tasks] does not raise: it returns and stores exactly the [N - 1]
    records, in task order, and the summary generated from the runner is
    computed over these records, with [total_tasks = N - 1], the mean call
    reduction and the hybrid success rate taken over them, and category
    counts that add up to [N - 1]. *)
Theorem run_all_tasks_isolates_failure
    (baseline_execute_task cs_execute_task : task_dict -> result AgentRun)
    (self : TestRunner) (pre post : list task_dict) (failing : task_dict)
    (e : exn) (ms_pre ms_post : list ComparisonMetrics) :
  Forall2 (evaluates_to baseline_execute_task cs_execute_task self)
          pre ms_pre ->
  Forall2 (evaluates_to baseline_execute_task cs_execute_task self)
          post ms_post ->
  is_Some (failing !! "id") ->
  run_single_task baseline_execute_task cs_execute_task self failing
  = Raise e ->
  pre ++ post <> [] ->
  exists (runner : TestRunner) (s : Summary),
    run_all_tasks baseline_execute_task cs_execute_task self
      (pre ++ failing :: post) None
    = Ok (runner, ms_pre ++ ms_post)
    /\ results runner = ms_pre ++ ms_post
    /\ len (results runner) = (len (pre ++ failing :: post) - 1)%Z
    /\ generate_summary_report runner = Ok (Report s)
    /\ total_tasks s = (len (pre ++ failing :: post) - 1)%Z
    /\ avg_call_reduction_pct (overall_improvements s)
       = (Qsum (map call_reduction_pct (ms_pre ++ ms_post))
          / inject_Z (len (pre ++ failing :: post) - 1))%Q
    /\ rate_cs_hybrid (success_rates s)
       = (inject_Z (Z.of_nat (length (List.filter cs_success
                                        (ms_pre ++ ms_post))))
          / inject_Z (len (pre ++ failing :: post) - 1))%Q
    /\ Zsum (map (fun c => count c.2) (by_category s))
       = (len (pre ++ failing :: post) - 1)%Z.
Proof.
  intros Hpre Hpost Hid Hfail Hne.
  pose proof (run_loop_one_failure _ _ self pre post failing e ms_pre ms_post
                Hpre Hpost Hid Hfail) as Hloop.
  set (runner := mkTestRunner (repo_path self) (verbose self)
                   (ms_pre ++ ms_post)).
  assert (Hlen : len (results runner)
                 = (len (pre ++ failing :: post) - 1)%Z).
  { unfold len. simpl. rewrite !length_app. simpl.
    apply Forall2_length in Hpre, Hpost. lia. }
  assert (Hres : results runner <> []).
  { simpl. intros E. apply Hne.
    apply app_eq_nil in E as [-> ->].
    apply Forall2_length in Hpre, Hpost.
    destruct pre, post; simpl in *; congruence. }
  destruct (generate_summary_report_ok runner Hres)
    as (s & Hs & Htot & Havg & Hrate & Hcat).
  exists runner, s.
  split; [unfold run_all_tasks; now rewrite Hloop|].
  split; [reflexivity|].
  split; [exact Hlen|].
  split; [exact Hs|].
  rewrite <- Hlen.
  split; [exact Htot|]. split; [exact Havg|]. split; [exact Hrate|].
  exact Hcat.
Qed.

(** The amended C4 on three tasks, the second of which makes the hybrid
    collaborator raise: the report counts 2 tasks. *)
Lemma run_all_tasks_isolates_failure_witness :
  exists (runner : TestRunner) (s : Summary),
    generate_summary_report runner = Ok (Report s)
    /\ length (results runner) = 2%nat
    /\ total_tasks s = 2%Z.
Proof.
  edestruct (run_all_tasks_isolates_failure example_baseline flaky_cs
               example_runner [example_task "t1"] [example_task "t3"]
               (example_task "t2"))
    as (runner & s & _ & Hres & _ & Hs & Htot & _).
  - constructor; [reflexivity|constructor].
  - constructor; [reflexivity|constructor].
  - eexists. reflexivity.
  - reflexivity.
  - discriminate.
  - exists runner, s. split; [exact Hs|]. split; [now rewrite Hres|].
    exact Htot.
Defined.

(** C4 as stated fails for [N = 1].  The only task makes the hybrid
    collaborator raise; the batch completes with no record, and the summary
    is the empty dictionary, which has no [total_tasks] entry to equal
    [N - 1 = 0]. *)
Lemma single_failed_task_gives_empty_report :
  run_single_task example_baseline flaky_cs example_runner
    (example_task "t2")
  = Raise (CollaboratorError "cs timed out")
  /\ run_all_tasks example_baseline flaky_cs example_runner
       [example_task "t2"] None
     = Ok (example_runner, [])
  /\ generate_summary_report example_runner = Ok EmptyReport
  /\ report_total_tasks EmptyReport = Raise (KeyError "total_tasks").
Proof. repeat split; vm_compute; reflexivity. Qed.

(** * Further properties of the metric engine *)

(** ** Cut-offs outside the list, and cut-offs below zero *)

Lemma hits_le_length (l : list SearchResult) : (hits l <= length l)%nat.
Proof.
  pose proof (hits_firstn_le (length l) l) as H. now rewrite firstn_all in H.
Qed.

Lemma sum_ones_nonneg {A : Type} (p : A -> bool) (l : list A) :
  (0 <= sum_ones p l 0)%Z.
Proof. rewrite sum_ones_hits. lia. Qed.

Lemma Qdiv_neg_den (a b : Q) : (0 <= a)%Q -> (b < 0)%Q -> (a / b <= 0)%Q.
Proof.
  intros Ha Hb.
  assert (Hnz : ~ (b == 0)%Q) by (intros E; rewrite E in Hb; discriminate Hb).
  assert (E : (a / b == (- a) / (- b))%Q) by (field; exact Hnz).
  rewrite E. apply Qle_shift_div_r.
  - rewrite <- (Qopp_involutive 0). apply Qopp_lt_compat. exact Hb.
  - rewrite Qmult_0_l. rewrite <- (Qopp_involutive 0).
    apply Qopp_le_compat. exact Ha.
Qed.

Lemma inject_Z_nonneg (z : Z) : (0 <= z)%Z -> (0 <= inject_Z z)%Q.
Proof. intros H. change 0%Q with (inject_Z 0). now rewrite <- Zle_Qle. Qed.

Lemma inject_Z_neg (z : Z) : (z < 0)%Z -> (inject_Z z < 0)%Q.
Proof. intros H. change 0%Q with (inject_Z 0). now rewrite <- Zlt_Qlt. Qed.

(** X1. When the list holds at most [k] results, [precision_at_k] divides
    the number of relevant results of the whole list by [k], not by the
    length of the list: it is at most [len(results) / k]. *)
Theorem precision_at_k_short_list (results : list SearchResult) (k : Z) :
  (0 < k)%Z -> (len results <= k)%Z ->
  exists q : Q,
    precision_at_k results k = Ok q
    /\ (q == inject_Z (Z.of_nat (hits results)) / inject_Z k)%Q
    /\ (q <= inject_Z (len results) / inject_Z k)%Q.
Proof.
  intros Hk Hlen. unfold len in Hlen.
  assert (Hkq : (0 < inject_Z k)%Q) by now apply inject_Z_pos.
  destruct results as [|r rest].
  { exists 0%Q. split; [reflexivity|]. split.
    - symmetry. apply Qdiv_0_num.
    - unfold len. simpl. rewrite Qdiv_0_num. apply Qle_refl. }
  set (l := r :: rest) in *.
  rewrite precision_at_k_quotient by (try discriminate; lia).
  rewrite firstn_all2 by lia.
  eexists. split; [reflexivity|]. split; [reflexivity|].
  apply Qdiv_le_mono_num; [exact Hkq|].
  unfold len. rewrite <- Zle_Qle. pose proof (hits_le_length l). lia.
Qed.

(** X1 on five results, all relevant, at the cut-off 10: precision 1/2. *)
Lemma precision_at_k_short_list_witness :
  exists q : Q,
    precision_at_k (mark {[ "doc1"; "doc2"; "doc3"; "doc4"; "doc5" ]}
                      example_results) 10 = Ok q
    /\ (q == 1 # 2)%Q.
Proof.
  destruct (precision_at_k_short_list
              (mark {[ "doc1"; "doc2"; "doc3"; "doc4"; "doc5" ]}
                 example_results) 10)
    as (q & Hq & Hval & _); [lia|vm_compute; discriminate|].
  exists q. split; [exact Hq|]. rewrite Hval. vm_compute. reflexivity.
Defined.

(** X2. [precision_at_k] raises for no integer cut-off; a negative cut-off
    is accepted and gives a value that is at most 0. *)
Theorem precision_at_k_any_cutoff (results : list SearchResult) (k : Z) :
  exists q : Q,
    precision_at_k results k = Ok q /\ ((k < 0)%Z -> (q <= 0)%Q).
Proof.
  unfold precision_at_k.
  destruct (is_empty results || (k =? 0)%Z) eqn:E.
  { exists 0%Q. split; [reflexivity|]. intros _. apply Qle_refl. }
  apply orb_false_iff in E as [_ Hk]. apply Z.eqb_neq in Hk.
  rewrite truediv_ok by now apply inject_Z_nonzero.
  eexists. split; [reflexivity|]. intros Hneg.
  apply Qdiv_neg_den; [|now apply inject_Z_neg].
  apply inject_Z_nonneg, sum_ones_nonneg.
Qed.

(** X3. [recall_at_k] raises for no integers [k] and [total_relevant]; it
    is 0 on an empty list, on [k = 0] and on [total_relevant = 0]; and for
    [k >= 0] and [total_relevant > 0] it is non-negative, and at most 1
    exactly when the top [k] holds no more relevant results than
    [total_relevant]. *)
Theorem recall_at_k_any_input (results : list SearchResult) (k t : Z) :
  exists q : Q,
    recall_at_k results k t = Ok q
    /\ (results = [] \/ k = 0%Z \/ t = 0%Z -> q = 0%Q)
    /\ ((0 <= k)%Z -> (0 < t)%Z ->
        (0 <= q)%Q
        /\ ((q <= 1)%Q
            <-> (Z.of_nat (hits (firstn (Z.to_nat k) results)) <= t)%Z)).
Proof.
  destruct (is_empty results || (k =? 0)%Z || (t =? 0)%Z) eqn:E.
  - exists 0%Q. unfold recall_at_k. rewrite E.
    split; [reflexivity|]. split; [reflexivity|].
    intros Hk Ht. split; [apply Qle_refl|].
    split; [|intros _; q_closed]. intros _.
    apply orb_true_iff in E as [E|E]; [|apply Z.eqb_eq in E; lia].
    apply orb_true_iff in E as [E|E].
    + destruct results; [|discriminate]. rewrite firstn_nil.
      unfold hits. simpl. lia.
    + apply Z.eqb_eq in E. subst k. unfold hits. simpl. lia.
  - apply orb_false_iff in E as [E Ht0]. apply orb_false_iff in E as [Hres Hk0].
    apply Z.eqb_neq in Ht0, Hk0.
    unfold recall_at_k. rewrite Hres. simpl orb.
    destruct (Z.eqb_spec k 0) as [|_]; [contradiction|].
    destruct (Z.eqb_spec t 0) as [|_]; [contradiction|].
    simpl orb. cbv iota.
    rewrite truediv_ok by now apply inject_Z_nonzero.
    eexists. split; [reflexivity|]. split.
    { intros [->|[->| ->]]; [discriminate|contradiction|contradiction]. }
    intros Hk Ht. rewrite slice_to_nonneg by assumption.
    rewrite sum_ones_hits, Z.add_0_l.
    fold (hits (firstn (Z.to_nat k) results)).
    set (h := Z.of_nat (hits (firstn (Z.to_nat k) results))).
    assert (Htq : (0 < inject_Z t)%Q) by now apply inject_Z_pos.
    split.
    + apply Qle_shift_div_l; [exact Htq|]. rewrite Qmult_0_l.
      apply inject_Z_nonneg. unfold h. lia.
    + split.
      * intros Hle. rewrite Zle_Qle.
        apply (Qmult_le_compat_r _ _ (inject_Z t)) in Hle;
          [|now apply Qlt_le_weak].
        rewrite Qmult_1_l in Hle. unfold Qdiv in Hle.
        rewrite <- Qmult_assoc, (Qmult_comm (/ inject_Z t)) in Hle.
        rewrite Qmult_inv_r, Qmult_1_r in Hle; [exact Hle|].
        now apply inject_Z_nonzero.
      * intros Hle. apply Qle_shift_div_r; [exact Htq|].
        rewrite Qmult_1_l. now rewrite <- Zle_Qle.
Qed.

(** ** Where the reciprocal rank, and with it the bundle, is undefined *)

Lemma mrr_loop_find (l : list SearchResult) :
  mrr_loop l
  = match List.find relevant l with
    | Some x => float_div_int 1 (rank x)
    | None => Ok 0%Q
    end.
Proof.
  induction l as [|r rest IH]; simpl; [reflexivity|].
  destruct (relevant r); [reflexivity|exact IH].
Qed.

(** What [a / b] raises, for a float [a] and an int [b], tells what [b]
    is. *)
Lemma float_div_int_raises (a : Q) (b : Z) (e : exn) :
  float_div_int a b = Raise e ->
  (e = ZeroDivisionError /\ b = 0%Z)
  \/ (e = OverflowError /\ (float_overflow <= Z.abs b)%Z).
Proof.
  destruct (float_div_int_cases a b)
    as [[Hb ->]|[[Hb ->]|(_ & _ & ->)]]; intros [= <-]; auto.
Qed.

Lemma float_div_int_zero_iff (a : Q) (b : Z) :
  float_div_int a b = Raise ZeroDivisionError <-> b = 0%Z.
Proof.
  split; [|intros ->; apply float_div_int_zero].
  intros H. apply float_div_int_raises in H as [[_ Hb]|[[=] _]]. exact Hb.
Qed.

Lemma float_div_int_overflow_iff (a : Q) (b : Z) :
  float_div_int a b = Raise OverflowError
  <-> (float_overflow <= Z.abs b)%Z.
Proof.
  split; [|apply float_div_int_overflow].
  intros H. apply float_div_int_raises in H as [[[=] _]|[_ Hb]]. exact Hb.
Qed.

(** X4. [mean_reciprocal_rank] raises [ZeroDivisionError] exactly when the
    first relevant result of the list is stored with rank 0, and
    [OverflowError] exactly when it is stored with a rank of magnitude
    [2**1024 - 2**970] or more, which has no float; it raises nothing else.
    It is 0 when the list has no relevant result, and negative when the
    first relevant result has a negative rank that has a float. *)
Theorem mean_reciprocal_rank_first_relevant (l : list SearchResult) :
  (mean_reciprocal_rank l = Raise ZeroDivisionError
   <-> exists x, List.find relevant l = Some x /\ rank x = 0%Z)
  /\ (mean_reciprocal_rank l = Raise OverflowError
      <-> exists x, List.find relevant l = Some x
                    /\ (float_overflow <= Z.abs (rank x))%Z)
  /\ (forall e, mean_reciprocal_rank l = Raise e ->
      e = ZeroDivisionError \/ e = OverflowError)
  /\ (List.find relevant l = None -> mean_reciprocal_rank l = Ok 0%Q)
  /\ (forall x, List.find relevant l = Some x ->
      (- float_overflow < rank x < 0)%Z ->
      exists q : Q, mean_reciprocal_rank l = Ok q /\ (q < 0)%Q).
Proof.
  rewrite mean_reciprocal_rank_loop, mrr_loop_find.
  destruct (List.find relevant l) as [x|].
  - split; [|split; [|split; [|split]]].
    + rewrite float_div_int_zero_iff. split.
      * intros Hr. now exists x.
      * now intros (y & [= <-] & Hr).
    + rewrite float_div_int_overflow_iff. split.
      * intros Hr. now exists x.
      * now intros (y & [= <-] & Hr).
    + intros e H. apply float_div_int_raises in H as [[-> _]|[-> _]]; auto.
    + discriminate.
    + intros y [= <-] Hneg.
      rewrite float_div_int_ok by lia.
      eexists. split; [reflexivity|].
      assert (Hq : (inject_Z (rank x) < 0)%Q) by (apply inject_Z_neg; lia).
      unfold Qdiv. rewrite Qmult_1_l.
      apply Qnot_le_lt. intros Hle.
      assert (Hinv : (0 <= / / inject_Z (rank x))%Q)
        by now apply Qinv_le_0_compat.
      rewrite Qinv_involutive in Hinv.
      eapply Qlt_not_le; eassumption.
  - split; [|split; [|split; [|split]]].
    + split; [discriminate|]. intros (y & [=] & _).
    + split; [discriminate|]. intros (y & [=] & _).
    + discriminate.
    + reflexivity.
    + discriminate.
Qed.

Lemma find_mark (rel : gset string) (l : list SearchResult) :
  List.find relevant (mark rel l)
  = option_map
      (fun r => mkSearchResult (doc_id r) (score r) (rank r) true)
      (List.find (fun r => bool_decide (doc_id r ∈ rel)) l).
Proof.
  induction l as [|r rest IH]; simpl; [reflexivity|].
  destruct (bool_decide (doc_id r ∈ rel)) eqn:E; simpl; [reflexivity|].
  exact IH.
Qed.

Lemma mrr_mark_find (rel : gset string) (l : list SearchResult) :
  mean_reciprocal_rank (mark rel l)
  = match List.find (fun r => bool_decide (doc_id r ∈ rel)) l with
    | Some x => float_div_int 1 (rank x)
    | None => Ok 0%Q
    end.
Proof.
  rewrite mean_reciprocal_rank_loop, mrr_loop_find, find_mark.
  now destruct (List.find _ l).
Qed.

Lemma evaluate_query_mrr_raise (results : list SearchResult)
    (rel : gset string) (e : exn) :
  mean_reciprocal_rank (mark rel results) = Raise e ->
  evaluate_query results rel = Raise e.
Proof.
  intros Hm.
  destruct (precision_at_k_unit (mark rel results) 1) as (p1 & H1 & _);
    [lia|].
  destruct (precision_at_k_unit (mark rel results) 5) as (p5 & H5 & _);
    [lia|].
  destruct (precision_at_k_unit (mark rel results) 10) as (p10 & H10 & _);
    [lia|].
  destruct (recall_at_k_bounds (mark rel results) 10 (set_len rel))
    as (r10 & Hr & _); [unfold set_len; lia..|].
  unfold evaluate_query. rewrite H1, H5, H10, Hr, Hm. reflexivity.
Qed.

(** X5. [evaluate_query] raises exactly when the reciprocal rank does:
    [ZeroDivisionError] exactly when the first result whose identifier is in
    the judgment set is stored with rank 0, [OverflowError] exactly when it
    is stored with a rank of magnitude [2**1024 - 2**970] or more, and
    nothing else. *)
Theorem evaluate_query_raises_iff (results : list SearchResult)
    (relevant_docs : gset string) :
  (evaluate_query results relevant_docs = Raise ZeroDivisionError
   <-> exists x,
         List.find (fun r => bool_decide (doc_id r ∈ relevant_docs)) results
         = Some x
         /\ rank x = 0%Z)
  /\ (evaluate_query results relevant_docs = Raise OverflowError
      <-> exists x,
            List.find (fun r => bool_decide (doc_id r ∈ relevant_docs))
              results
            = Some x
            /\ (float_overflow <= Z.abs (rank x))%Z)
  /\ (forall e, evaluate_query results relevant_docs = Raise e ->
      e = ZeroDivisionError \/ e = OverflowError).
Proof.
  pose proof (mrr_mark_find relevant_docs results) as Hfind.
  destruct (mean_reciprocal_rank (mark relevant_docs results))
    as [m|e0] eqn:Hm.
  - destruct (evaluate_query_fields results relevant_docs m Hm)
      as (p1 & p5 & p10 & r10 & ap & _ & _ & _ & _ & _ & Heq).
    rewrite Heq. split; [|split]; [split; [discriminate|]..|discriminate].
    + intros (x & Hx & Hr). rewrite Hx, Hr, float_div_int_zero in Hfind.
      discriminate.
    + intros (x & Hx & Hr). rewrite Hx in Hfind.
      rewrite float_div_int_overflow in Hfind by exact Hr. discriminate.
  - rewrite (evaluate_query_mrr_raise _ _ _ Hm).
    destruct (List.find _ results) as [x|]; [|discriminate].
    symmetry in Hfind. split; [|split].
    + split.
      * intros [= ->]. exists x. split; [reflexivity|].
        now apply (float_div_int_zero_iff 1).
      * intros (y & [= <-] & Hr). rewrite Hr, float_div_int_zero in Hfind.
        now injection Hfind as <-.
    + split.
      * intros [= ->]. exists x. split; [reflexivity|].
        now apply (float_div_int_overflow_iff 1).
      * intros (y & [= <-] & Hr).
        rewrite float_div_int_overflow in Hfind by exact Hr.
        now injection Hfind as <-.
    + intros e [= <-].
      apply float_div_int_raises in Hfind as [[-> _]|[-> _]]; auto.
Qed.

Lemma mark_reflag (rel : gset string) (f : SearchResult -> bool)
    (l : list SearchResult) :
  mark rel (reflag f l) = mark rel l.
Proof. unfold mark, reflag. rewrite map_map. reflexivity. Qed.

(** X6. The relevance flags a caller stores in the results have no effect on
    [evaluate_query]: the join overwrites every flag from the judgment
    set. *)
Theorem evaluate_query_ignores_flags (f : SearchResult -> bool)
    (results : list SearchResult) (relevant_docs : gset string) :
  evaluate_query (reflag f results) relevant_docs
  = evaluate_query results relevant_docs.
Proof.
  unfold evaluate_query. rewrite mark_reflag.
  destruct results as [|r rest]; reflexivity.
Qed.

Lemma hits_mark_empty (l : list SearchResult) : hits (mark ∅ l) = 0%nat.
Proof.
  unfold hits. induction l as [|r rest IH]; simpl; [reflexivity|].
  rewrite bool_decide_eq_false_2 by apply not_elem_of_empty. exact IH.
Qed.

Lemma precision_at_k_no_hits (l : list SearchResult) (k : Z) :
  (0 <= k)%Z -> hits l = 0%nat ->
  exists q : Q, precision_at_k l k = Ok q /\ (q == 0)%Q.
Proof.
  intros Hk Hh.
  destruct l as [|r rest]; [exists 0%Q; split; reflexivity|].
  destruct (Z.eq_dec k 0%Z) as [->|Hk0]; [exists 0%Q; split; reflexivity|].
  rewrite precision_at_k_quotient by (try discriminate; lia).
  eexists. split; [reflexivity|].
  pose proof (hits_firstn_le_all (Z.to_nat k) (r :: rest)) as Hle.
  replace (hits (firstn (Z.to_nat k) (r :: rest))) with 0%nat by lia.
  apply Qdiv_0_num.
Qed.

(** X7. With an empty judgment set [evaluate_query] never raises, whatever
    the ranks, and every metric of the bundle is 0. *)
Theorem evaluate_query_no_judgments (results : list SearchResult) :
  exists b : EvaluationResult,
    evaluate_query results ∅ = Ok b
    /\ (precision_at_1 b == 0)%Q /\ (precision_at_5 b == 0)%Q
    /\ (precision_at_10 b == 0)%Q /\ recall_at_10 b = 0%Q
    /\ mrr b = 0%Q /\ ndcg_at_10 b = 0%R /\ average_precision_of b = 0%Q.
Proof.
  pose proof (hits_mark_empty results) as Hh.
  destruct (precision_at_k_no_hits (mark ∅ results) 1) as (p1 & H1 & E1);
    [lia|assumption|].
  destruct (precision_at_k_no_hits (mark ∅ results) 5) as (p5 & H5 & E5);
    [lia|assumption|].
  destruct (precision_at_k_no_hits (mark ∅ results) 10) as (p10 & H10 & E10);
    [lia|assumption|].
  assert (Hlen : set_len ∅ = 0%Z) by (unfold set_len; now rewrite size_empty).
  assert (Hm : mean_reciprocal_rank (mark ∅ results) = Ok 0%Q).
  { rewrite mean_reciprocal_rank_loop. now apply mrr_loop_no_relevant. }
  assert (Hr : recall_at_k (mark ∅ results) 10 (set_len ∅) = Ok 0%Q).
  { unfold recall_at_k. rewrite Hlen. now rewrite orb_true_r. }
  assert (Hap : average_precision (mark ∅ results) (set_len ∅) = Ok 0%Q).
  { unfold average_precision. rewrite Hlen. now rewrite orb_true_r. }
  assert (Hn : normalized_dcg (mark ∅ results) 10 (set_len ∅) = 0%R).
  { apply normalized_dcg_guarded. rewrite Hlen. auto. }
  eexists. split.
  - unfold evaluate_query. rewrite H1, H5, H10, Hr, Hm, Hap. reflexivity.
  - simpl. repeat split; assumption.
Qed.

(** ** Perfect rankings, growing windows, and the mean over queries *)

Lemma ap_loop_no_hits (l : list SearchResult) (i rc : Z) (sp : Q) :
  hits l = 0%nat -> ap_loop i l rc sp = Ok sp.
Proof.
  revert i. unfold hits.
  induction l as [|r rest IH]; intros i Hh; simpl in *; [reflexivity|].
  destruct (relevant r); [discriminate|]. now apply IH.
Qed.

Lemma Qdiv_same (q : Q) : ~ (q == 0)%Q -> (q / q == 1)%Q.
Proof. intros H. unfold Qdiv. now apply Qmult_inv_r. Qed.

Lemma ap_loop_relevant_prefix (pre post : list SearchResult) (i : Z)
    (sp : Q) :
  Forall (fun r => relevant r = true) pre -> hits post = 0%nat ->
  (1 <= i)%Z ->
  exists s : Q,
    ap_loop i (pre ++ post) (i - 1) sp = Ok s
    /\ (s == sp + inject_Z (len pre))%Q.
Proof.
  intros Hpre Hpost. revert i sp.
  induction Hpre as [|r pre Hr _ IH]; intros i sp Hi.
  - exists sp. simpl. split; [now apply ap_loop_no_hits|].
    unfold len. simpl. now rewrite Qplus_0_r.
  - simpl. rewrite Hr.
    replace (i - 1 + 1)%Z with i by lia.
    rewrite truediv_ok by (apply inject_Z_nonzero; lia). simpl.
    destruct (IH (i + 1)%Z (sp + inject_Z i / inject_Z i)%Q) as (s & Hs & Es);
      [lia|].
    replace (i + 1 - 1)%Z with i in Hs by lia.
    exists s. split; [exact Hs|]. rewrite Es.
    rewrite Qdiv_same by (apply inject_Z_nonzero; lia).
    unfold len. simpl length.
    replace (Z.of_nat (S (length pre))) with (1 + Z.of_nat (length pre))%Z
      by lia.
    rewrite inject_Z_plus. now rewrite Qplus_assoc.
Qed.

(** X8. A ranking that puts all its relevant results first, and has as many
    of them as there are relevant documents, has average precision 1. *)
Theorem average_precision_perfect_ranking (pre post : list SearchResult) :
  pre <> [] ->
  Forall (fun r => relevant r = true) pre -> hits post = 0%nat ->
  exists q : Q,
    average_precision (pre ++ post) (len pre) = Ok q /\ (q == 1)%Q.
Proof.
  intros Hne Hpre Hpost.
  assert (Hlen : (0 < len pre)%Z).
  { unfold len. destruct pre; [contradiction|simpl; lia]. }
  unfold average_precision.
  replace (is_empty (pre ++ post)) with false
    by (destruct pre; [contradiction|reflexivity]).
  destruct (Z.eqb_spec (len pre) 0) as [E|_]; [lia|].
  simpl orb. cbv iota.
  destruct (ap_loop_relevant_prefix pre post 1 0%Q Hpre Hpost) as (s & Hs & Es);
    [lia|].
  change (1 - 1)%Z with 0%Z in Hs. rewrite Hs. simpl.
  rewrite truediv_ok by (apply inject_Z_nonzero; lia).
  eexists. split; [reflexivity|].
  rewrite Es, Qplus_0_l. apply Qdiv_same, inject_Z_nonzero. lia.
Qed.

(** X8 on two relevant results followed by an irrelevant one. *)
Lemma average_precision_perfect_ranking_witness :
  exists q : Q,
    average_precision
      ([mkSearchResult "a" 1 1 true; mkSearchResult "b" 1 2 true]
       ++ [mkSearchResult "c" 1 3 false]) 2 = Ok q
    /\ (q == 1)%Q.
Proof.
  apply (average_precision_perfect_ranking
           [mkSearchResult "a" 1 1 true; mkSearchResult "b" 1 2 true]
           [mkSearchResult "c" 1 3 false]).
  - discriminate.
  - repeat constructor.
  - reflexivity.
Defined.

Lemma dcg_positions_app (p : nat) (l1 l2 : list bool) :
  dcg_positions p (l1 ++ l2)
  = (dcg_positions p l1 + dcg_positions (p + length l1) l2)%R.
Proof.
  revert p. induction l1 as [|b rest IH]; intros p; simpl.
  - rewrite Nat.add_0_r. lra.
  - rewrite IH. replace (S p + length rest)%nat with (p + S (length rest))%nat
      by lia. lra.
Qed.

Lemma dcg_positions_all_false (p n : nat) :
  dcg_positions p (repeat false n) = 0%R.
Proof.
  revert p. induction n as [|n IH]; intros p; simpl; [reflexivity|].
  rewrite IH. lra.
Qed.

Lemma firstn_repeat_min {A : Type} (x : A) (n a : nat) :
  firstn n (repeat x a) = repeat x (Nat.min n a).
Proof.
  revert a. induction n as [|n IH]; intros [|a]; simpl; try reflexivity.
  now rewrite IH.
Qed.

Lemma flags_all_relevant (l : list SearchResult) :
  Forall (fun r => relevant r = true) l ->
  map relevant l = repeat true (length l).
Proof.
  induction 1 as [|r rest Hr _ IH]; simpl; [reflexivity|].
  now rewrite Hr, IH.
Qed.

Lemma flags_no_hits (l : list SearchResult) :
  hits l = 0%nat -> map relevant l = repeat false (length l).
Proof.
  unfold hits. induction l as [|r rest IH]; simpl; [reflexivity|].
  destruct (relevant r); [discriminate|]. intros H. now rewrite IH.
Qed.

(** The gain of a window over relevant results followed by irrelevant
    ones. *)
Lemma dcg_perfect_window (pre post : list SearchResult) (n : nat) :
  Forall (fun r => relevant r = true) pre -> hits post = 0%nat ->
  dcg_positions 1 (map relevant (firstn n (pre ++ post)))
  = dcg_positions 1 (repeat true (Nat.min n (length pre))).
Proof.
  intros Hpre Hpost.
  rewrite <- firstn_map, map_app.
  rewrite (flags_all_relevant pre Hpre), (flags_no_hits post Hpost).
  rewrite firstn_app, !firstn_repeat_min, repeat_length.
  rewrite dcg_positions_app, dcg_positions_all_false. lra.
Qed.

(** X9. On a ranking that puts all its relevant results first, and has as
    many of them as there are relevant documents, [normalized_dcg] is 1 at
    every positive cut-off. *)
Theorem normalized_dcg_perfect_ranking (pre post : list SearchResult)
    (k : Z) :
  pre <> [] -> (0 < k)%Z ->
  Forall (fun r => relevant r = true) pre -> hits post = 0%nat ->
  normalized_dcg (pre ++ post) k (len pre) = 1%R.
Proof.
  intros Hne Hk Hpre Hpost.
  assert (Hlen : (0 < len pre)%Z).
  { unfold len. destruct pre; [contradiction|simpl; lia]. }
  destruct (normalized_dcg_quotient (pre ++ post) k (len pre))
    as [Hpos ->]; [destruct pre; [contradiction|discriminate]|lia..|].
  rewrite discounted_cumulative_gain_positions.
  rewrite slice_to_nonneg by lia.
  rewrite (dcg_perfect_window pre post _ Hpre Hpost).
  replace (Nat.min (Z.to_nat k) (length pre))
    with (Z.to_nat (Z.min k (len pre))) by (unfold len; lia).
  field. lra.
Qed.

(** X9 on two relevant results followed by an irrelevant one, cut-off 10. *)
Lemma normalized_dcg_perfect_ranking_witness :
  normalized_dcg
    ([mkSearchResult "a" 1 1 true; mkSearchResult "b" 1 2 true]
     ++ [mkSearchResult "c" 1 3 false]) 10 2 = 1%R.
Proof.
  apply (normalized_dcg_perfect_ranking
           [mkSearchResult "a" 1 1 true; mkSearchResult "b" 1 2 true]
           [mkSearchResult "c" 1 3 false] 10).
  - discriminate.
  - lia.
  - repeat constructor.
  - reflexivity.
Defined.

Lemma dcg_positions_firstn_mono (p n1 n2 : nat) (flags : list bool) :
  (1 <= p)%nat -> (n1 <= n2)%nat ->
  (dcg_positions p (firstn n1 flags) <= dcg_positions p (firstn n2 flags))%R.
Proof.
  revert p n1 n2. induction flags as [|b rest IH]; intros p n1 n2 Hp Hn.
  - rewrite !firstn_nil. lra.
  - destruct n1 as [|n1].
    + simpl firstn at 1. simpl dcg_positions at 1.
      now apply dcg_positions_nonneg.
    + destruct n2 as [|n2]; [lia|]. simpl.
      specialize (IH (S p) n1 n2 ltac:(lia) ltac:(lia)). lra.
Qed.

(** X10. [discounted_cumulative_gain] is never negative, whatever the
    integer cut-off, negative ones included; and over non-negative cut-offs
    it does not decrease when the cut-off grows. *)
Theorem discounted_cumulative_gain_monotone (results : list SearchResult) :
  (forall k : Z, (0 <= discounted_cumulative_gain results k)%R)
  /\ (forall k1 k2 : Z, (0 <= k1)%Z -> (k1 <= k2)%Z ->
      (discounted_cumulative_gain results k1
       <= discounted_cumulative_gain results k2)%R).
Proof.
  split.
  - intros k. rewrite discounted_cumulative_gain_positions.
    apply dcg_positions_nonneg. lia.
  - intros k1 k2 Hk1 Hk12.
    rewrite !discounted_cumulative_gain_positions.
    rewrite !slice_to_nonneg by lia. rewrite <- !firstn_map.
    apply dcg_positions_firstn_mono; lia.
Qed.

(** X10 at the negative cut-off -1 and between the cut-offs 1 and 2. *)
Lemma discounted_cumulative_gain_monotone_witness :
  (0 <= discounted_cumulative_gain
          [mkSearchResult "a" 1 1 true; mkSearchResult "b" 1 2 true] (-1))%R
  /\ (discounted_cumulative_gain
        [mkSearchResult "a" 1 1 true; mkSearchResult "b" 1 2 true] 1
      <= discounted_cumulative_gain
           [mkSearchResult "a" 1 1 true; mkSearchResult "b" 1 2 true] 2)%R.
Proof.
  split.
  - apply (proj1 (discounted_cumulative_gain_monotone
                    [mkSearchResult "a" 1 1 true;
                     mkSearchResult "b" 1 2 true]) (-1)%Z).
  - apply (proj2 (discounted_cumulative_gain_monotone
                    [mkSearchResult "a" 1 1 true;
                     mkSearchResult "b" 1 2 true]) 1%Z 2%Z); lia.
Defined.

Lemma Qsum_unit (l : list Q) :
  Forall unit_Q l -> (0 <= Qsum l)%Q /\ (Qsum l <= inject_Z (len l))%Q.
Proof.
  unfold len. induction 1 as [|x rest [Hlo Hhi] _ [IHlo IHhi]]; simpl Qsum.
  - split; q_closed.
  - replace (Z.of_nat (length (x :: rest)))
      with (1 + Z.of_nat (length rest))%Z by (simpl length; lia).
    rewrite inject_Z_plus. split; [lra|].
    change (inject_Z 1) with 1%Q. lra.
Qed.

Lemma query_average_precision_unit (J : gmap string (gset string))
    (item : string * list SearchResult) (ap : Q) :
  NoDup (map doc_id item.2) ->
  query_average_precision J item = Ok ap -> unit_Q ap.
Proof.
  intros Hnd. unfold query_average_precision.
  destruct (J !! item.1) as [docs|].
  - intros Hap.
    destruct (average_precision_bounds (mark docs item.2)
                (Z.of_nat (size docs))) as (q & Hq & Hlo & Hhi & _).
    rewrite Hap in Hq. apply Ok_inj in Hq as <-.
    pose proof (hits_mark_le docs item.2 Hnd).
    split; [apply Hlo|apply Hhi]; lia.
  - intros [= <-]. split; q_closed.
Qed.

Lemma Forall_list_filter {A : Type} (P : A -> Prop) (f : A -> bool)
    (l : list A) :
  Forall P l -> Forall P (List.filter f l).
Proof.
  induction 1 as [|x rest Hx _ IH]; simpl; [constructor|].
  destruct (f x); [constructor|]; assumption.
Qed.

Lemma Forall2_unit {A : Type} (R : A -> Q -> Prop) (l : list A)
    (aps : list Q) :
  Forall (fun x => forall ap, R x ap -> unit_Q ap) l ->
  Forall2 R l aps -> Forall unit_Q aps.
Proof.
  intros HF H2. induction H2 as [|x ap l aps Hx _ IH]; [constructor|].
  inversion HF; subst. constructor; auto.
Qed.

(** X11. When the results of every query have pairwise distinct
    identifiers, [mean_average_precision] returns a value between 0 and
    1. *)
Theorem mean_average_precision_unit_interval
    (all_results : list (string * list SearchResult))
    (relevance_judgments : gmap string (gset string)) :
  Forall (fun item => NoDup (map doc_id item.2)) all_results ->
  exists m : Q,
    mean_average_precision all_results relevance_judgments = Ok m
    /\ unit_Q m.
Proof.
  intros Hnd.
  destruct (map_loop_spec all_results relevance_judgments [])
    as (aps & HF & Hloop).
  simpl in Hloop.
  assert (Hunit : Forall unit_Q aps).
  { eapply Forall2_unit; [|exact HF].
    apply Forall_list_filter.
    eapply Forall_impl; [exact Hnd|].
    intros item Hitem ap Hap.
    now apply (query_average_precision_unit relevance_judgments item). }
  unfold mean_average_precision.
  destruct all_results as [|item rest].
  { exists 0%Q. split; [reflexivity|split; q_closed]. }
  simpl is_empty. cbv iota. rewrite Hloop. simpl.
  destruct aps as [|ap aps'].
  { exists 0%Q. split; [reflexivity|split; q_closed]. }
  eexists. split; [reflexivity|].
  destruct (Qsum_unit _ Hunit) as [Hlo Hhi].
  unfold np_mean.
  assert (Hn : (0 < inject_Z (len (ap :: aps')))%Q).
  { apply inject_Z_pos. unfold len. simpl. lia. }
  split.
  - apply Qle_shift_div_l; [exact Hn|]. now rewrite Qmult_0_l.
  - apply Qle_shift_div_r; [exact Hn|]. now rewrite Qmult_1_l.
Qed.

(** X11 on the two example queries. *)
Lemma mean_average_precision_unit_interval_witness :
  exists m : Q,
    mean_average_precision
      [("q1", example_results); ("q2", example_results)]
      (<["q1" := example_relevant_docs]> (<["q2" := ∅]> ∅))
    = Ok m
    /\ unit_Q m.
Proof.
  apply (mean_average_precision_unit_interval
           [("q1", example_results); ("q2", example_results)]).
  constructor; [|constructor; [|constructor]]; simpl;
    apply (bool_decide_eq_true_1 (NoDup _)); vm_compute; reflexivity.
Defined.

(** ** The set measures and the F1 score *)

Lemma set_len_nonzero (s : gset string) :
  set_is_empty s = false -> (0 < set_len s)%Z.
Proof.
  unfold set_is_empty, set_len. intros H.
  apply bool_decide_eq_false_1 in H.
  destruct (size s) eqn:E; [|lia].
  apply size_empty_inv in E. apply leibniz_equiv in E. contradiction.
Qed.

(** X12. [semantic_recall] never raises and lies between 0 and 1; it is 1
    when every ground-truth document was matched and the ground truth is not
    empty, and 0 when no match is in the ground truth. *)
Theorem semantic_recall_spec (semantic_matches ground_truth : gset string) :
  exists q : Q,
    semantic_recall semantic_matches ground_truth = Ok q
    /\ unit_Q q
    /\ (ground_truth <> ∅ -> ground_truth ⊆ semantic_matches -> (q == 1)%Q)
    /\ (semantic_matches ∩ ground_truth = ∅ -> (q == 0)%Q).
Proof.
  unfold semantic_recall.
  destruct (set_is_empty ground_truth) eqn:E.
  { exists 0%Q. split; [reflexivity|]. split; [split; q_closed|].
    split; [|reflexivity]. intros Hne _.
    apply bool_decide_eq_true_1 in E. contradiction. }
  pose proof (set_len_nonzero _ E) as Hpos.
  rewrite truediv_ok by (apply inject_Z_nonzero; lia).
  eexists. split; [reflexivity|].
  assert (Hsub : (size (semantic_matches ∩ ground_truth)
                  <= size ground_truth)%nat).
  { apply subseteq_size, intersection_subseteq_r. }
  split; [apply unit_quotient; unfold set_len in *; lia|].
  split.
  - intros _ Hall.
    assert (Heq : semantic_matches ∩ ground_truth = ground_truth).
    { rewrite (comm_L (∩)). now apply subseteq_intersection_1_L. }
    rewrite Heq. apply Qdiv_same, inject_Z_nonzero. lia.
  - intros ->. unfold set_len. rewrite size_empty. apply Qdiv_0_num.
Qed.

(** X13. [ast_precision] is [semantic_recall] with its arguments swapped:
    the precision of the matches against the ground truth is the recall of
    the ground truth against the matches. *)
Theorem ast_precision_is_swapped_recall (ast_matches ground_truth
    : gset string) :
  ast_precision ast_matches ground_truth
  = semantic_recall ground_truth ast_matches.
Proof.
  unfold ast_precision, semantic_recall.
  now rewrite (comm_L (∩) ast_matches ground_truth).
Qed.



(** ** The sign of the fusion gain *)

Lemma Qdiv_sign_pos (a b : Q) :
  (0 < b)%Q -> ((0 <= a / b)%Q <-> (0 <= a)%Q).
Proof.
  intros Hb. split.
  - intros H.
    assert (E : (a == a / b * b)%Q) by (field; lra).
    rewrite E. apply Qmult_le_0_compat; lra.
  - intros H. apply Qle_shift_div_l; [exact Hb|]. lra.
Qed.

Lemma Qdiv_sign_neg (a b : Q) :
  (b < 0)%Q -> ((0 <= a / b)%Q <-> (a <= 0)%Q).
Proof.
  intros Hb.
  assert (E : (a / b == (- a) / (- b))%Q) by (field; lra).
  rewrite E, Qdiv_sign_pos by lra. split; intros; lra.
Qed.

(** X15. The sign of [hybrid_fusion_gain] follows the sign of the best
    single score: over a positive best score the gain is non-negative exactly
    when the hybrid score reaches it, and over a negative best score the gain
    is non-negative exactly when the hybrid score does not exceed it. *)
Theorem hybrid_fusion_gain_sign (hybrid semantic lexical ast : Q) :
  exists g : Q,
    hybrid_fusion_gain hybrid semantic lexical ast = Ok g
    /\ ((0 < Qmax semantic (Qmax lexical ast))%Q ->
        ((0 <= g)%Q <-> (Qmax semantic (Qmax lexical ast) <= hybrid)%Q))
    /\ ((Qmax semantic (Qmax lexical ast) < 0)%Q ->
        ((0 <= g)%Q <-> (hybrid <= Qmax semantic (Qmax lexical ast))%Q)).
Proof.
  pose proof (best_single_Qmax semantic lexical ast) as Hbest.
  unfold hybrid_fusion_gain. cbv zeta.
  set (best := py_max (py_max semantic lexical) ast) in *.
  destruct (Qeq_bool best 0) eqn:E.
  - apply Qeq_bool_eq in E.
    exists 0%Q. split; [reflexivity|]. split; intros H; exfalso; lra.
  - apply Qeq_bool_neq in E. rewrite truediv_ok by exact E.
    eexists. split; [reflexivity|]. split; intros Hs.
    + rewrite Qdiv_sign_pos by lra. split; intros; lra.
    + rewrite Qdiv_sign_neg by lra. split; intros; lra.
Qed.

(** X15 on three negative single scores: a hybrid score above the best of
    them gives a negative gain. *)
Lemma hybrid_fusion_gain_sign_witness :
  exists g : Q,
    hybrid_fusion_gain (- (1 # 10)) (- (1 # 2)) (- (1 # 4)) (- (1 # 3))
    = Ok g
    /\ ~ (0 <= g)%Q.
Proof.
  destruct (hybrid_fusion_gain_sign
              (- (1 # 10)) (- (1 # 2)) (- (1 # 4)) (- (1 # 3)))
    as (g & Hg & _ & Hneg).
  exists g. split; [exact Hg|]. intros H0.
  apply Hneg in H0; [|vm_compute; reflexivity].
  revert H0. vm_compute. intros H0. now apply H0.
Defined.

(** * Further properties of the aggregation engine *)

(** ** Failures of a single evaluation *)

Lemma description_lookup_ok (self : TestRunner) (task : task_dict) :
  (verbose self = true -> is_Some (task !! "task")) ->
  exists v,
    (if verbose self then dict_getitem task "task" else Ok "") = Ok v.
Proof.
  intros H. destruct (verbose self); [|eauto].
  destruct (H eq_refl) as [v Hv]. exists v. unfold dict_getitem.
  now rewrite Hv.
Qed.

(** X16. [run_single_task] raises the first failure it meets, in this
    order: a task without ['id'] gives [KeyError('id')] before any agent is
    consulted; in verbose mode a task without ['task'] gives
    [KeyError('task')]; an exception of the baseline agent is raised without
    the hybrid agent being consulted; otherwise an exception of the hybrid
    agent is raised. *)
Theorem run_single_task_first_failure
    (baseline_execute_task cs_execute_task : task_dict -> result AgentRun)
    (self : TestRunner) (task : task_dict) :
  (task !! "id" = None ->
   run_single_task baseline_execute_task cs_execute_task self task
   = Raise (KeyError "id"))
  /\ (is_Some (task !! "id") -> verbose self = true ->
      task !! "task" = None ->
      run_single_task baseline_execute_task cs_execute_task self task
      = Raise (KeyError "task"))
  /\ (is_Some (task !! "id") ->
      (verbose self = true -> is_Some (task !! "task")) ->
      forall e, baseline_execute_task task = Raise e ->
      forall other_cs : task_dict -> result AgentRun,
        run_single_task baseline_execute_task other_cs self task = Raise e)
  /\ (is_Some (task !! "id") ->
      (verbose self = true -> is_Some (task !! "task")) ->
      forall A e, baseline_execute_task task = Ok A ->
      cs_execute_task task = Raise e ->
      run_single_task baseline_execute_task cs_execute_task self task
      = Raise e).
Proof.
  unfold run_single_task. split; [|split; [|split]].
  - intros Hid. unfold dict_getitem. now rewrite Hid.
  - intros [tid Hid] Hv Hdesc. unfold dict_getitem.
    now rewrite Hid, Hv, Hdesc.
  - intros [tid Hid] Hdesc e He other_cs.
    destruct (description_lookup_ok self task Hdesc) as (v & Hv).
    assert (Hg : dict_getitem task "id" = Ok tid)
      by (unfold dict_getitem; now rewrite Hid).
    rewrite Hg. simpl. rewrite Hv. simpl.
    now rewrite He.
  - intros [tid Hid] Hdesc A e HA He.
    destruct (description_lookup_ok self task Hdesc) as (v & Hv).
    assert (Hg : dict_getitem task "id" = Ok tid)
      by (unfold dict_getitem; now rewrite Hid).
    rewrite Hg. simpl. rewrite Hv. simpl.
    rewrite HA. simpl. now rewrite He.
Qed.

(** X16 on a verbose runner and a task that has an id but no
    description. *)
Lemma run_single_task_first_failure_witness :
  run_single_task example_baseline example_cs example_runner
    (<["id" := "t1"]> ∅)
  = Raise (KeyError "task").
Proof.
  apply (proj1 (proj2 (run_single_task_first_failure example_baseline
                         example_cs example_runner (<["id" := "t1"]> ∅)))).
  - eexists. reflexivity.
  - reflexivity.
  - reflexivity.
Defined.

Lemma percentage_range (a b : Z) :
  (0 < a)%Z -> (0 <= b)%Z ->
  (inject_Z (a - b) / inject_Z a * 100 <= 100)%Q
  /\ ((0 <= inject_Z (a - b) / inject_Z a * 100)%Q <-> (b <= a)%Z).
Proof.
  intros Ha Hb.
  assert (Haq : (0 < inject_Z a)%Q) by now apply inject_Z_pos.
  assert (Hle : (inject_Z (a - b) / inject_Z a <= 1)%Q).
  { apply Qle_shift_div_r; [exact Haq|]. rewrite Qmult_1_l.
    rewrite <- Zle_Qle. lia. }
  split; [lra|].
  pose proof (Qdiv_sign_pos (inject_Z (a - b)) (inject_Z a) Haq) as Hsign.
  split.
  - intros H.
    assert (H0 : (0 <= inject_Z (a - b))%Q) by (apply Hsign; lra).
    change 0%Q with (inject_Z 0) in H0. rewrite <- Zle_Qle in H0. lia.
  - intros H.
    assert (H0 : (0 <= inject_Z (a - b) / inject_Z a)%Q).
    { apply Hsign. apply inject_Z_nonneg. lia. }
    lra.
Qed.

(** X17. When the baseline run made at least one call and consumed at least
    one token, and the hybrid counts are not negative, the call and token
    reductions of the comparison record are at most 100 percent, and each is
    non-negative exactly when the hybrid run did not use more than the
    baseline. *)
Theorem run_single_task_reduction_range
    (baseline_execute_task cs_execute_task : task_dict -> result AgentRun)
    (self : TestRunner) (task : task_dict) (tid : string) (A B : AgentRun) :
  task !! "id" = Some tid ->
  (verbose self = true -> is_Some (task !! "task")) ->
  baseline_execute_task task = Ok A ->
  cs_execute_task task = Ok B ->
  (0 < total_calls A)%Z -> (0 <= total_calls B)%Z ->
  (0 < total_output_tokens A)%Z -> (0 <= total_output_tokens B)%Z ->
  exists m : ComparisonMetrics,
    run_single_task baseline_execute_task cs_execute_task self task = Ok m
    /\ (call_reduction_pct m <= 100)%Q
    /\ ((0 <= call_reduction_pct m)%Q <-> (total_calls B <= total_calls A)%Z)
    /\ (token_reduction_pct m <= 100)%Q
    /\ ((0 <= token_reduction_pct m)%Q
        <-> (total_output_tokens B <= total_output_tokens A)%Z).
Proof.
  intros Hid Hdesc HA HB Hca Hcb Hta Htb.
  eexists. split.
  { now apply (run_single_task_ok baseline_execute_task cs_execute_task
                 self task tid A B). }
  simpl.
  apply Z.ltb_lt in Hca as Hca', Hta as Hta'. rewrite Hca', Hta'.
  destruct (percentage_range _ _ Hca Hcb) as [Hc1 Hc2].
  destruct (percentage_range _ _ Hta Htb) as [Ht1 Ht2].
  repeat split; try assumption; try apply Hc2; try apply Ht2.
Qed.

(** X17 on the example runs: 10 against 4 calls, 1000 against 200
    tokens. *)
Lemma run_single_task_reduction_range_witness :
  exists m : ComparisonMetrics,
    run_single_task example_baseline example_cs example_runner
      (example_task "t1") = Ok m
    /\ (call_reduction_pct m <= 100)%Q
    /\ (token_reduction_pct m <= 100)%Q.
Proof.
  destruct (run_single_task_reduction_range example_baseline example_cs
              example_runner (example_task "t1") "t1"
              (mkAgentRun 10 2 1000 (1 # 2) (1 # 2) false)
              (mkAgentRun 4 1 200 (3 # 4) 1 true))
    as (m & Hm & Hc & _ & Ht & _);
    try reflexivity; try (simpl; lia).
  - intros _. eexists. reflexivity.
  - exists m. repeat split; assumption.
Defined.

(** ** The batch loop *)

Lemma has_id_getitem (task : task_dict) :
  has_id task = true -> exists tid, dict_getitem task "id" = Ok tid.
Proof.
  unfold has_id, dict_getitem. intros H.
  apply bool_decide_eq_true_1 in H as [tid Hid]. exists tid. now rewrite Hid.
Qed.

Lemma run_loop_with_ids
    (baseline_execute_task cs_execute_task : task_dict -> result AgentRun)
    (self : TestRunner) (tasks : list task_dict)
    (acc : list ComparisonMetrics) :
  Forall (fun t => has_id t = true) tasks ->
  exists res : list ComparisonMetrics,
    run_loop baseline_execute_task cs_execute_task self tasks acc
    = Ok (acc ++ res)
    /\ (length res <= length tasks)%nat.
Proof.
  intros H. revert acc.
  induction H as [|task rest Hid _ IH]; intros acc; simpl.
  - exists []. split; [now rewrite app_nil_r|simpl; lia].
  - destruct (has_id_getitem task Hid) as (tid & ->). simpl.
    destruct (run_single_task _ _ self task) as [m|e].
    + destruct (IH (acc ++ [m])) as (res & Hres & Hlen).
      exists (m :: res). split; [|simpl; lia].
      rewrite Hres. now rewrite <- app_assoc.
    + destruct (IH acc) as (res & Hres & Hlen).
      exists res. split; [exact Hres|lia].
Qed.

Lemma slice_to_is_firstn {A : Type} (l : list A) (k : Z) :
  exists n : nat,
    slice_to l k = firstn n l /\ ((0 <= k)%Z -> n = Z.to_nat k).
Proof.
  unfold slice_to. destruct (0 <=? k)%Z eqn:E.
  - eexists. split; [reflexivity|reflexivity].
  - eexists. split; [reflexivity|]. apply Z.leb_gt in E. lia.
Qed.

Lemma Forall_firstn {A : Type} (P : A -> Prop) (n : nat) (l : list A) :
  Forall P l -> Forall P (firstn n l).
Proof.
  intros H. revert n. induction H as [|x rest Hx _ IH]; intros [|n]; simpl;
    constructor; auto.
Qed.

(** X18. On tasks that all carry an ['id'], [run_all_tasks] never raises,
    whatever the two agents do and whatever [max_tasks] is: it returns a
    runner that keeps its path and verbosity and stores the returned records,
    of which there are at most as many as tasks. *)
Theorem run_all_tasks_never_raises
    (baseline_execute_task cs_execute_task : task_dict -> result AgentRun)
    (self : TestRunner) (tasks : list task_dict) (max_tasks : option Z) :
  Forall (fun t => has_id t = true) tasks ->
  exists (runner : TestRunner) (res : list ComparisonMetrics),
    run_all_tasks baseline_execute_task cs_execute_task self tasks max_tasks
    = Ok (runner, res)
    /\ results runner = res
    /\ repo_path runner = repo_path self
    /\ verbose runner = verbose self
    /\ (length res <= length tasks)%nat.
Proof.
  intros Hids. unfold run_all_tasks.
  set (tasks_to_run := match max_tasks with
                       | Some n => if (n =? 0)%Z then tasks
                                   else slice_to tasks n
                       | None => tasks
                       end).
  assert (Hrun : Forall (fun t => has_id t = true) tasks_to_run
                 /\ (length tasks_to_run <= length tasks)%nat).
  { unfold tasks_to_run. destruct max_tasks as [n|]; [|split; [assumption|lia]].
    destruct (n =? 0)%Z; [split; [assumption|lia]|].
    destruct (slice_to_is_firstn tasks n) as (n' & -> & _).
    split; [now apply Forall_firstn|]. rewrite length_firstn. lia. }
  destruct Hrun as [Hrun Hlen].
  destruct (run_loop_with_ids baseline_execute_task cs_execute_task self
              tasks_to_run [] Hrun) as (res & Hres & Hle).
  rewrite Hres. simpl.
  eexists _, res. repeat split. lia.
Qed.

(** X18 on three tasks, one of which makes the hybrid agent raise. *)
Lemma run_all_tasks_never_raises_witness :
  exists (runner : TestRunner) (res : list ComparisonMetrics),
    run_all_tasks example_baseline flaky_cs example_runner
      [example_task "t1"; example_task "t2"; example_task "t3"] None
    = Ok (runner, res)
    /\ (length res <= 3)%nat.
Proof.
  destruct (run_all_tasks_never_raises example_baseline flaky_cs
              example_runner
              [example_task "t1"; example_task "t2"; example_task "t3"]
              None)
    as (runner & res & Hrun & _ & _ & _ & Hlen).
  - repeat constructor.
  - exists runner, res. split; [exact Hrun|exact Hlen].
Defined.

(** X19. [max_tasks = 0] does not run zero tasks: it is falsy and selects
    every task, like [None].  A positive [max_tasks] bounds the number of
    records, on tasks that carry an id. *)
Theorem run_all_tasks_max_tasks
    (baseline_execute_task cs_execute_task : task_dict -> result AgentRun)
    (self : TestRunner) (tasks : list task_dict) :
  run_all_tasks baseline_execute_task cs_execute_task self tasks (Some 0%Z)
  = run_all_tasks baseline_execute_task cs_execute_task self tasks None
  /\ (forall n : Z,
         (0 < n)%Z -> Forall (fun t => has_id t = true) tasks ->
         exists (runner : TestRunner) (res : list ComparisonMetrics),
           run_all_tasks baseline_execute_task cs_execute_task self tasks
             (Some n)
           = Ok (runner, res)
           /\ (length res <= Z.to_nat n)%nat).
Proof.
  split; [reflexivity|].
  intros n Hn Hids. unfold run_all_tasks.
  destruct (Z.eqb_spec n 0) as [->|_]; [lia|].
  rewrite slice_to_nonneg by lia.
  destruct (run_loop_with_ids baseline_execute_task cs_execute_task self
              (firstn (Z.to_nat n) tasks) [])
    as (res & Hres & Hle); [now apply Forall_firstn|].
  rewrite Hres. simpl. eexists _, res. split; [reflexivity|].
  rewrite length_firstn in Hle. lia.
Qed.

(** X19 with [max_tasks = 1] on two tasks. *)
Lemma run_all_tasks_max_tasks_witness :
  exists (runner : TestRunner) (res : list ComparisonMetrics),
    run_all_tasks example_baseline example_cs example_runner
      [example_task "t1"; example_task "t3"] (Some 1%Z)
    = Ok (runner, res)
    /\ (length res <= 1)%nat.
Proof.
  apply (proj2 (run_all_tasks_max_tasks example_baseline example_cs
                  example_runner [example_task "t1"; example_task "t3"])
           1%Z); [lia|repeat constructor].
Defined.

Lemma run_loop_missing_id
    (baseline_execute_task cs_execute_task : task_dict -> result AgentRun)
    (self : TestRunner) (pre post : list task_dict) (task : task_dict)
    (acc : list ComparisonMetrics) :
  Forall (fun t => has_id t = true) pre ->
  task !! "id" = None ->
  run_loop baseline_execute_task cs_execute_task self (pre ++ task :: post)
    acc
  = Raise (KeyError "id").
Proof.
  intros Hpre Hid. revert acc.
  induction Hpre as [|t rest Ht _ IH]; intros acc; simpl.
  - unfold dict_getitem. now rewrite Hid.
  - destruct (has_id_getitem t Ht) as (tid & ->). simpl.
    destruct (run_single_task _ _ self t); apply IH.
Qed.

(** X20. A task without ['id'] is not isolated like a failing evaluation:
    the progress line reads [task['id']] outside the [try], so the batch
    stops with [KeyError('id')] and returns no record, not even those of the
    tasks already evaluated. *)
Theorem run_all_tasks_missing_id_aborts
    (baseline_execute_task cs_execute_task : task_dict -> result AgentRun)
    (self : TestRunner) (pre post : list task_dict) (task : task_dict) :
  Forall (fun t => has_id t = true) pre ->
  task !! "id" = None ->
  run_all_tasks baseline_execute_task cs_execute_task self
    (pre ++ task :: post) None
  = Raise (KeyError "id").
Proof.
  intros Hpre Hid. unfold run_all_tasks.
  now rewrite (run_loop_missing_id _ _ self pre post task [] Hpre Hid).
Qed.

(** X20 on a good task followed by a task without an id. *)
Lemma run_all_tasks_missing_id_aborts_witness :
  run_all_tasks example_baseline example_cs example_runner
    ([example_task "t1"] ++ (<["task" := "no id"]> ∅) :: []) None
  = Raise (KeyError "id").
Proof.
  apply (run_all_tasks_missing_id_aborts example_baseline example_cs
           example_runner [example_task "t1"] []
           (<["task" := "no id"]> ∅)).
  - repeat constructor.
  - reflexivity.
Defined.

(** ** Loading the tasks *)

Lemma load_tasks_fold (documents : list yaml_document)
    (acc : list yaml_value) :
  omap task_of_node
    (foldl (fun tasks doc =>
              match doc with
              | YSequence items => tasks ++ items
              | YSingle (YMapping d) =>
                  if has_id d then tasks ++ [YMapping d] else tasks
              | YSingle YOther => tasks
              end)
           acc documents)
  = omap task_of_node acc
    ++ omap task_of_node (concat (map document_nodes documents)).
Proof.
  revert acc. induction documents as [|doc rest IH]; intros acc; simpl.
  - now rewrite app_nil_r.
  - rewrite IH. rewrite (omap_app _ (document_nodes doc)).
    destruct doc as [items|[d|]]; simpl.
    + now rewrite omap_app, <- app_assoc.
    + destruct (has_id d) eqn:E; simpl.
      * rewrite omap_app. simpl. rewrite E. now rewrite <- app_assoc.
      * reflexivity.
    + reflexivity.
Qed.

Lemma task_of_node_has_id (v : yaml_value) (t : task_dict) :
  task_of_node v = Some t -> has_id t = true.
Proof.
  destruct v as [d|]; simpl; [|discriminate].
  destruct (has_id d) eqn:E; [|discriminate]. now intros [= <-].
Qed.

Lemma load_tasks_ids (documents : list yaml_document) :
  Forall (fun t => has_id t = true) (load_tasks documents).
Proof.
  apply Forall_forall. intros t Ht. unfold load_tasks in Ht.
  apply list_elem_of_omap in Ht as (v & _ & Hv).
  now apply task_of_node_has_id in Hv.
Qed.

(** X21. [load_tasks] returns, in document order, exactly the mappings that
    have an ['id'] and are either a document of the stream or an entry of a
    document that is a sequence; every other node is dropped, so every loaded
    task carries an ['id']. *)
Theorem load_tasks_spec (documents : list yaml_document) :
  load_tasks documents
  = omap task_of_node (concat (map document_nodes documents))
  /\ Forall (fun t => has_id t = true) (load_tasks documents)
  /\ (forall t : task_dict,
         t ∈ load_tasks documents
         <-> has_id t = true
             /\ exists doc, doc ∈ documents /\ YMapping t ∈ document_nodes doc).
Proof.
  assert (E : load_tasks documents
              = omap task_of_node (concat (map document_nodes documents))).
  { exact (load_tasks_fold documents []). }
  split; [exact E|]. split; [apply load_tasks_ids|].
  intros t. rewrite E, list_elem_of_omap. split.
  - intros (v & Hv & Ht).
    pose proof (task_of_node_has_id _ _ Ht) as Hid.
    split; [exact Hid|].
    destruct v as [d|]; simpl in Ht; [|discriminate].
    destruct (has_id d); [|discriminate]. injection Ht as ->.
    apply list_elem_of_In, in_concat in Hv as (nodes & Hn & Hin).
    apply in_map_iff in Hn as (doc & <- & Hdoc).
    exists doc. split; now apply list_elem_of_In.
  - intros (Hid & doc & Hdoc & Hin).
    exists (YMapping t). split; [|simpl; now rewrite Hid].
    apply list_elem_of_In, in_concat.
    exists (document_nodes doc). split; [|now apply list_elem_of_In].
    apply in_map. now apply list_elem_of_In.
Qed.

Lemma selected_tasks_have_ids (tasks : list task_dict)
    (max_tasks : option Z) :
  Forall (fun t => has_id t = true) tasks ->
  Forall (fun t => has_id t = true)
         (match max_tasks with
          | Some n => if (n =? 0)%Z then tasks else slice_to tasks n
          | None => tasks
          end).
Proof.
  intros H. destruct max_tasks as [n|]; [|assumption].
  destruct (n =? 0)%Z; [assumption|].
  destruct (slice_to_is_firstn tasks n) as (n' & -> & _).
  now apply Forall_firstn.
Qed.

(** X22. A batch run on the tasks that [load_tasks] returns never raises,
    whatever the documents of the file, the two agents and [max_tasks]
    are. *)
Theorem run_all_tasks_on_loaded_tasks
    (baseline_execute_task cs_execute_task : task_dict -> result AgentRun)
    (self : TestRunner) (documents : list yaml_document)
    (max_tasks : option Z) :
  exists (runner : TestRunner) (res : list ComparisonMetrics),
    run_all_tasks baseline_execute_task cs_execute_task self
      (load_tasks documents) max_tasks
    = Ok (runner, res)
    /\ results runner = res.
Proof.
  unfold run_all_tasks.
  pose proof (selected_tasks_have_ids _ max_tasks (load_tasks_ids documents))
    as Hids.
  destruct (run_loop_with_ids baseline_execute_task cs_execute_task self
              _ [] Hids) as (res & Hres & _).
  rewrite Hres. simpl. eexists _, res. split; reflexivity.
Qed.

(** ** The summary *)

(** X23. [generate_summary_report] never raises: [statistics.mean] and
    [statistics.median] are only reached on non-empty data and every
    division is by a positive length.  The report is the empty dictionary
    exactly when the runner holds no record. *)
Theorem generate_summary_report_total (self : TestRunner) :
  exists r : report,
    generate_summary_report self = Ok r
    /\ (r = EmptyReport <-> results self = [])
    /\ (forall s, r = Report s -> (1 <= total_tasks s)%Z).
Proof.
  destruct (results self) as [|m rest] eqn:E.
  - exists EmptyReport. split; [now apply generate_summary_report_empty|].
    split; [tauto|discriminate].
  - assert (Hne : results self <> []) by (rewrite E; discriminate).
    destruct (generate_summary_report_ok self Hne) as (s & Hs & Htot & _).
    exists (Report s). split; [exact Hs|].
    split; [split; discriminate|].
    intros s' [= <-]. rewrite Htot, E. unfold len. simpl. lia.
Qed.

(** The whole report on a non-empty record collection. *)
Lemma generate_summary_report_fields (self : TestRunner) :
  results self <> [] ->
  exists (sums : list (string * CategorySummary)) (mc mt : Q),
    mapM summarize_category (group_by_category (results self)) = Ok sums
    /\ generate_summary_report self
       = Ok (Report
               {| total_tasks := len (results self);
                  overall_improvements :=
                    mkOverallImprovements
                      (mean_by call_reduction_pct (results self)) mc
                      (mean_by token_reduction_pct (results self)) mt
                      (mean_by time_reduction_pct (results self));
                  success_rates :=
                    mkSuccessRates
                      (inject_Z (sum_ones baseline_success (results self) 0)
                       / inject_Z (len (results self)))
                      (inject_Z (sum_ones cs_success (results self) 0)
                       / inject_Z (len (results self)))
                      (inject_Z (sum_ones cs_success (results self) 0
                                 - sum_ones baseline_success (results self) 0)
                       / inject_Z (len (results self)));
                  precision_recall :=
                    mkPrecisionRecall
                      (mean_by baseline_precision (results self))
                      (mean_by cs_precision (results self))
                      (mean_by baseline_recall (results self))
                      (mean_by cs_recall (results self))
                      (mean_by cs_precision (results self)
                       - mean_by baseline_precision (results self))
                      (mean_by cs_recall (results self)
                       - mean_by baseline_recall (results self));
                  by_category := sums |}).
Proof.
  intros Hne. unfold generate_summary_report, mean_by, group_by_category.
  destruct (results self) as [|m0 rest] eqn:Eres; [contradiction|].
  simpl is_empty. cbv iota zeta. rewrite <- Eres in *.
  rewrite !statistics_mean_ok by now apply map_nonempty.
  rewrite !len_map. simpl.
  destruct (group_by_category_invariant (results self) [])
    as [Hgroups _]; [constructor|].
  destruct (summarize_categories_ok _ Hgroups) as (sums & Hs & _).
  rewrite Hs. simpl.
  destruct (statistics_median_ok (map call_reduction_pct (results self)))
    as (mc & ->); [now apply map_nonempty|]. simpl.
  destruct (statistics_median_ok (map token_reduction_pct (results self)))
    as (mt & ->); [now apply map_nonempty|]. simpl.
  rewrite !truediv_ok by now apply len_nonzero. simpl.
  exists sums, mc, mt. split; reflexivity.
Qed.

Lemma sum_ones_range {A : Type} (p : A -> bool) (l : list A) :
  (0 <= sum_ones p l 0 <= len l)%Z.
Proof.
  rewrite sum_ones_hits. unfold len.
  pose proof (List.filter_length_le p l). lia.
Qed.

Lemma success_rate_unit {A : Type} (p : A -> bool) (l : list A) :
  l <> [] -> unit_Q (inject_Z (sum_ones p l 0) / inject_Z (len l)).
Proof.
  intros Hne. pose proof (sum_ones_range p l) as [Hlo Hhi].
  assert (Hlen : (0 < len l)%Z).
  { unfold len. destruct l; [contradiction|simpl; lia]. }
  rewrite <- (Z2Nat.id (sum_ones p l 0)) by assumption.
  apply unit_quotient; [exact Hlen|]. rewrite Z2Nat.id by assumption.
  exact Hhi.
Qed.







(** ** The category buckets *)

Lemma records_of_category_snoc (c : string) (l : list ComparisonMetrics)
    (m : ComparisonMetrics) :
  records_of_category c (l ++ [m])
  = records_of_category c l
    ++ (if String.eqb (task_category m) c then [m] else []).
Proof. unfold records_of_category. rewrite List.filter_app. reflexivity. Qed.

Lemma records_of_absent_category (c : string) (keys : list string)
    (l : list ComparisonMetrics) :
  Forall (fun m => task_category m ∈ keys) l -> c ∉ keys ->
  records_of_category c l = [].
Proof.
  intros Hl Hc. unfold records_of_category.
  induction Hl as [|m rest Hm _ IH]; simpl; [reflexivity|].
  destruct (String.eqb_spec (task_category m) c) as [E|_]; [|exact IH].
  subst c. contradiction.
Qed.

Lemma categories_append_keys (cat : string) (m : ComparisonMetrics)
    (cats : list (string * list ComparisonMetrics)) :
  map fst (categories_append cat m cats)
  = if bool_decide (cat ∈ map fst cats) then map fst cats
    else map fst cats ++ [cat].
Proof.
  induction cats as [|[c ms] rest IH]; simpl.
  - reflexivity.
  - destruct (String.eqb_spec c cat) as [->|Hne]; simpl.
    + rewrite bool_decide_eq_true_2 by apply list_elem_of_here. reflexivity.
    + rewrite IH. destruct (decide (cat ∈ map fst rest)) as [Hin|Hout].
      * rewrite !bool_decide_eq_true_2; [reflexivity| |assumption].
        now apply list_elem_of_further.
      * rewrite !bool_decide_eq_false_2; [reflexivity| |assumption].
        intros Hin. apply elem_of_cons in Hin as [->|Hin]; contradiction.
Qed.

Lemma categories_append_entries (m : ComparisonMetrics)
    (l : list ComparisonMetrics)
    (cats : list (string * list ComparisonMetrics)) :
  NoDup (map fst cats) ->
  Forall (fun e => e.2 = records_of_category e.1 l /\ e.2 <> []) cats ->
  (task_category m ∉ map fst cats ->
   records_of_category (task_category m) l = []) ->
  Forall (fun e => e.2 = records_of_category e.1 (l ++ [m]) /\ e.2 <> [])
         (categories_append (task_category m) m cats).
Proof.
  intros Hnd Hcats Habsent.
  induction Hcats as [|[c ms] rest [Hms Hne] Hrest IH]; simpl.
  - constructor; [|constructor]. simpl. split; [|discriminate].
    rewrite records_of_category_snoc, String.eqb_refl.
    rewrite Habsent by apply not_elem_of_nil. reflexivity.
  - simpl in Hnd. apply NoDup_cons in Hnd as [Hfresh Hnd]. simpl in *.
    destruct (String.eqb_spec c (task_category m)) as [E|Hdiff].
    + constructor; simpl.
      * split; [|destruct ms; discriminate].
        rewrite records_of_category_snoc, <- E, String.eqb_refl.
        now rewrite <- Hms.
      * apply Forall_forall. intros [c' ms'] Hin.
        rewrite Forall_forall in Hrest.
        destruct (Hrest _ Hin) as [Hms' Hne']. simpl in *.
        split; [|exact Hne'].
        rewrite records_of_category_snoc.
        destruct (String.eqb_spec (task_category m) c') as [E'|_];
          [|now rewrite app_nil_r].
        exfalso. apply Hfresh. rewrite E, E'.
        apply list_elem_of_fmap. now exists (c', ms').
    + constructor; simpl.
      * split; [|exact Hne].
        rewrite records_of_category_snoc.
        destruct (String.eqb_spec (task_category m) c) as [E'|_];
          [now symmetry in E'|].
        now rewrite app_nil_r.
      * apply IH; [exact Hnd|].
        intros Hout. apply Habsent. intros Hin.
        apply elem_of_cons in Hin as [E'|Hin]; [now symmetry in E'|].
        contradiction.
Qed.

Lemma categories_append_groups (m : ComparisonMetrics)
    (l : list ComparisonMetrics)
    (cats : list (string * list ComparisonMetrics)) :
  groups_of cats l ->
  groups_of (categories_append (task_category m) m cats) (l ++ [m]).
Proof.
  intros (Hnd & Hcats & Hl).
  pose proof (categories_append_keys (task_category m) m cats) as Hkeys.
  split; [|split].
  - rewrite Hkeys. destruct (decide (task_category m ∈ map fst cats)).
    + now rewrite bool_decide_eq_true_2.
    + rewrite bool_decide_eq_false_2 by assumption.
      apply NoDup_app. split; [exact Hnd|]. split.
      * intros c Hc Hin. apply list_elem_of_singleton in Hin. now subst c.
      * apply NoDup_singleton.
  - apply categories_append_entries; try assumption.
    intros Hout. now apply (records_of_absent_category _ (map fst cats)).
  - rewrite Hkeys. apply Forall_app. split.
    + eapply Forall_impl; [exact Hl|]. intros m' Hin. simpl in Hin.
      destruct (bool_decide _); [exact Hin|].
      apply elem_of_app. now left.
    + constructor; [|constructor].
      destruct (decide (task_category m ∈ map fst cats)).
      * now rewrite bool_decide_eq_true_2.
      * rewrite bool_decide_eq_false_2 by assumption.
        apply elem_of_app. right. apply list_elem_of_here.
Qed.

Lemma group_by_category_groups (l : list ComparisonMetrics) :
  groups_of (group_by_category l) l.
Proof.
  unfold group_by_category.
  assert (G : forall rest cats l0,
             groups_of cats l0 ->
             groups_of
               (foldl (fun cats metric =>
                         categories_append (task_category metric) metric cats)
                      cats rest)
               (l0 ++ rest)).
  { induction rest as [|m rest IH]; intros cats l0 H; simpl.
    - now rewrite app_nil_r.
    - replace (l0 ++ m :: rest) with ((l0 ++ [m]) ++ rest)
        by now rewrite <- app_assoc.
      apply IH. now apply categories_append_groups. }
  apply (G l [] []). split; [constructor|]. split; constructor.
Qed.

Lemma summarize_categories_rel
    (categories : list (string * list ComparisonMetrics)) :
  Forall (fun entry => entry.2 <> []) categories ->
  exists sums : list (string * CategorySummary),
    mapM summarize_category categories = Ok sums
    /\ Forall2 (fun e s =>
                  s.1 = e.1 /\ count s.2 = len e.2
                  /\ unit_Q (cs_success_rate s.2))
               categories sums.
Proof.
  induction 1 as [|[cat ms] rest Hne _ (sums & Hs & HF)].
  - exists []. split; [reflexivity|constructor].
  - simpl in Hne.
    assert (Hsum : summarize_category (cat, ms)
                   = Ok (cat,
                         mkCategorySummary (len ms)
                           (Qsum (map call_reduction_pct ms)
                            / inject_Z (len (map call_reduction_pct ms)))
                           (Qsum (map token_reduction_pct ms)
                            / inject_Z (len (map token_reduction_pct ms)))
                           (inject_Z (sum_ones cs_success ms 0)
                            / inject_Z (len ms)))).
    { unfold summarize_category.
      rewrite !statistics_mean_ok by now apply map_nonempty. simpl.
      now rewrite truediv_ok by now apply len_nonzero. }
    eexists (_ :: sums). split.
    + change (mapM summarize_category ((cat, ms) :: rest))
        with (y ← summarize_category (cat, ms);
              k ← mapM summarize_category rest; mret (y :: k)).
      rewrite Hsum. simpl. rewrite Hs. reflexivity.
    + constructor; [|exact HF]. simpl.
      split; [reflexivity|]. split; [reflexivity|].
      now apply success_rate_unit.
Qed.

Lemma Forall2_elem_of_right {A B : Type} (R : A -> B -> Prop)
    (l1 : list A) (l2 : list B) (y : B) :
  Forall2 R l1 l2 -> y ∈ l2 -> exists x, x ∈ l1 /\ R x y.
Proof.
  induction 1 as [|x y' l1 l2 Hxy _ IH]; intros Hy.
  - now apply elem_of_nil in Hy.
  - apply elem_of_cons in Hy as [->|Hy].
    + exists x. split; [apply list_elem_of_here|exact Hxy].
    + destruct (IH Hy) as (x' & Hx' & HR).
      exists x'. split; [now apply list_elem_of_further|exact HR].
Qed.

Lemma Forall2_keys {A B : Type} (R : string * A -> string * B -> Prop)
    (l1 : list (string * A)) (l2 : list (string * B)) :
  (forall e s, R e s -> s.1 = e.1) ->
  Forall2 R l1 l2 -> map fst l2 = map fst l1.
Proof.
  intros HR. induction 1 as [|e s l1 l2 Hes _ IH]; simpl; [reflexivity|].
  now rewrite (HR _ _ Hes), IH.
Qed.

(** X26. The [by_category] part of the report is a partition of the
    records by category: its keys are pairwise distinct, every record's
    category is a key, and the entry of a category counts exactly the records
    of that category, at least one, with a hybrid success rate between 0 and
    1. *)
Theorem summary_by_category_partition (self : TestRunner) :
  results self <> [] ->
  exists s : Summary,
    generate_summary_report self = Ok (Report s)
    /\ NoDup (map fst (by_category s))
    /\ (forall m, m ∈ results self ->
        task_category m ∈ map fst (by_category s))
    /\ (forall c stats, (c, stats) ∈ by_category s ->
        count stats = len (records_of_category c (results self))
        /\ (1 <= count stats)%Z
        /\ unit_Q (cs_success_rate stats)).
Proof.
  intros Hne.
  destruct (generate_summary_report_fields self Hne)
    as (sums & mc & mt & Hsums & Hs).
  destruct (group_by_category_groups (results self)) as (Hnd & Hcats & Hl).
  destruct (summarize_categories_rel (group_by_category (results self)))
    as (sums' & Hsums' & HF).
  { eapply Forall_impl; [exact Hcats|]. now intros e [_ He]. }
  rewrite Hsums in Hsums'. apply Ok_inj in Hsums' as <-.
  assert (Hkeys : map fst sums = map fst (group_by_category (results self))).
  { eapply Forall2_keys; [|exact HF]. now intros e s0 [E _]. }
  eexists. split; [exact Hs|]. simpl. rewrite Hkeys.
  split; [exact Hnd|]. split.
  - intros m Hm. rewrite Forall_forall in Hl. now apply Hl.
  - intros c stats Hin.
    destruct (Forall2_elem_of_right _ _ _ _ HF Hin)
      as ([c' ms] & He & Hc & Hcount & Hrate).
    simpl in *. subst c'.
    rewrite Forall_forall in Hcats.
    destruct (Hcats _ He) as [Hms Hnonempty]. simpl in *.
    split; [now rewrite Hcount, Hms|]. split; [|exact Hrate].
    rewrite Hcount. unfold len. destruct ms; [contradiction|simpl; lia].
Qed.

(** X26 on a runner that holds one record. *)
Lemma summary_by_category_partition_witness :
  exists s : Summary,
    generate_summary_report
      (mkTestRunner "/repo" false [example_record]) = Ok (Report s)
    /\ NoDup (map fst (by_category s)).
Proof.
  destruct (summary_by_category_partition
              (mkTestRunner "/repo" false [example_record]))
    as (s & Hs & Hnd & _); [discriminate|].
  exists s. split; assumption.
Defined.

(** ** Printing the summary *)

Lemma print_summary_nonempty (s : Summary) :
  by_category s <> [] ->
  print_summary (Report s) = Raise (KeyError "avg_call_reduction_pct").
Proof.
  destruct s as [n oi sr pr cats]. simpl.
  destruct cats as [|[c stats] rest]; [contradiction|]. intros _.
  reflexivity.
Qed.

(** X27. [print_summary] fails on every report that
    [generate_summary_report] produces.  On the empty report the first read,
    [summary['total_tasks']], raises [KeyError]; on any other report the
    category loop reads [stats['avg_call_reduction_pct']], a key that the
    category entries never have (they store ['avg_call_reduction']), and
    raises [KeyError] on the first category. *)
Theorem print_summary_always_raises (self : TestRunner) :
  exists r : report,
    generate_summary_report self = Ok r
    /\ print_summary r
       = Raise (KeyError (if is_empty (results self) then "total_tasks"
                          else "avg_call_reduction_pct")).
Proof.
  destruct (results self) as [|m rest] eqn:E.
  - exists EmptyReport. split; [now apply generate_summary_report_empty|].
    reflexivity.
  - assert (Hne : results self <> []) by (rewrite E; discriminate).
    destruct (generate_summary_report_ok self Hne)
      as (s & Hs & _ & _ & _ & Hcat).
    exists (Report s). split; [exact Hs|]. simpl.
    apply print_summary_nonempty. intros Hnil.
    rewrite Hnil, E in Hcat. unfold len in Hcat. simpl in Hcat. lia.
Qed.
